(** * Regression losses of mmpose: SmoothL1Loss and WingLoss

    A shallow embedding of [mmpose/models/losses/regression_loss.py].

    Tensor entries are idealised to real numbers (exact arithmetic, no
    rounding and no overflow).  What the tensor engine does where real
    arithmetic has no answer is kept: the mean of an empty tensor and [0 / 0]
    are [NaN], a non-zero value divided by zero is an infinity, shapes that do
    not broadcast raise [RuntimeError], and Python's [math.log] and [/] raise
    [ValueError] and [ZeroDivisionError]. *)

From Stdlib Require Import Reals Lra Lia List Arith Bool.
Import ListNotations.

Open Scope R_scope.

(** ** Outcomes of a call *)

(** The Python exceptions the two [forward] methods can end in. *)
Inductive exn : Type :=
| RuntimeError        (* tensor shapes that cannot be broadcast *)
| ZeroDivisionError   (* [self.omega / self.epsilon] with epsilon = 0 *)
| ValueError.         (* [math.log] of a non-positive number *)

Inductive result (A : Type) : Type :=
| Returns (a : A)
| Raises (e : exn).

Arguments Returns {A} a.
Arguments Raises {A} e.

Definition bind {A B : Type} (m : result A) (k : A -> result B) : result B :=
  match m with
  | Returns a => k a
  | Raises e => Raises e
  end.

Definition fmap {A B : Type} (f : A -> B) (m : result A) : result B :=
  bind m (fun a => Returns (f a)).

Notation "x <- m ;; k" := (bind m (fun x => k))
  (at level 61, m at next level, right associativity).

(** A zero-dimensional tensor: a real number, or one of the three special
    values of the tensor engine's arithmetic. *)
Inductive scalar : Type :=
| Fin (r : R)
| PosInf
| NegInf
| NaN.

(** [loss / num_joints]: a scalar tensor divided by a Python int. *)
Definition div_count (s : scalar) (k : nat) : scalar :=
  match s with
  | Fin x =>
      if Nat.eqb k 0 then
        if Rlt_dec 0 x then PosInf
        else if Rlt_dec x 0 then NegInf
        else NaN
      else Fin (x / INR k)
  | PosInf => PosInf
  | NegInf => NegInf
  | NaN => NaN
  end.

(** [... * self.loss_weight]: a scalar tensor times a Python float. *)
Definition mul_weight (s : scalar) (w : R) : scalar :=
  match s with
  | Fin x => Fin (x * w)
  | PosInf =>
      if Rlt_dec 0 w then PosInf else if Rlt_dec w 0 then NegInf else NaN
  | NegInf =>
      if Rlt_dec 0 w then NegInf else if Rlt_dec w 0 then PosInf else NaN
  | NaN => NaN
  end.

(** ** Tensors of rank three *)

(** A tensor of shape [(size0, size1, size2)]; [at_ i j d] is read only for
    indices inside the shape. *)
Record Tensor : Type := mkTensor {
  size0 : nat;
  size1 : nat;
  size2 : nat;
  at_ : nat -> nat -> nat -> R
}.

Definition shape (t : Tensor) : nat * nat * nat := (size0 t, size1 t, size2 t).

Definition numel (t : Tensor) : nat := (size0 t * size1 t * size2 t)%nat.

(** The tensor written as a nested Python list, e.g. [[[[0; 0]]]]. *)
Definition of_list (l : list (list (list R))) : Tensor :=
  {| size0 := length l;
     size1 := length (hd [] l);
     size2 := length (hd [] (hd [] l));
     at_ := fun i j d => nth d (nth j (nth i l []) []) 0 |}.

(** Broadcasting of one dimension: equal sizes, or one of them is 1. *)
Definition broadcast_size (a b : nat) : option nat :=
  if Nat.eqb a b then Some a
  else if Nat.eqb a 1 then Some b
  else if Nat.eqb b 1 then Some a
  else None.

(** Index into a dimension of size [n] that was expanded by broadcasting. *)
Definition expand_index (n i : nat) : nat := if Nat.eqb n 1 then O else i.

(** An elementwise binary operation with broadcasting
    ([a.mul(b)], [a - b], and the pairing inside [F.smooth_l1_loss]). *)
Definition map2 (f : R -> R -> R) (a b : Tensor) : result Tensor :=
  match broadcast_size (size0 a) (size0 b),
        broadcast_size (size1 a) (size1 b),
        broadcast_size (size2 a) (size2 b) with
  | Some n0, Some n1, Some n2 =>
      Returns
        {| size0 := n0; size1 := n1; size2 := n2;
           at_ := fun i j d =>
             f (at_ a (expand_index (size0 a) i) (expand_index (size1 a) j)
                      (expand_index (size2 a) d))
               (at_ b (expand_index (size0 b) i) (expand_index (size1 b) j)
                      (expand_index (size2 b) d)) |}
  | _, _, _ => Raises RuntimeError
  end.

(** An elementwise unary operation ([.abs()], [torch.where] on one tensor). *)
Definition map1 (f : R -> R) (a : Tensor) : Tensor :=
  {| size0 := size0 a; size1 := size1 a; size2 := size2 a;
     at_ := fun i j d => f (at_ a i j d) |}.

Definition mul (a b : Tensor) : result Tensor := map2 Rmult a b.
Definition sub (a b : Tensor) : result Tensor := map2 Rminus a b.
Definition abs (a : Tensor) : Tensor := map1 Rabs a.

(** [sum_upto n f = f 0 + ... + f (n-1)]. *)
Fixpoint sum_upto (n : nat) (f : nat -> R) : R :=
  match n with
  | O => 0
  | S m => sum_upto m f + f m
  end.

(** [torch.sum(t, dim=[1, 2])]: one number per sample of the batch. *)
Definition sum_dims12 (t : Tensor) (i : nat) : R :=
  sum_upto (size1 t) (fun j => sum_upto (size2 t) (fun d => at_ t i j d)).

(** [torch.mean(v, dim=0)] of a vector of length [n]. *)
Definition mean_dim0 (n : nat) (v : nat -> R) : scalar :=
  if Nat.eqb n 0 then NaN else Fin (sum_upto n v / INR n).

(** The mean of all entries (the reduction ['mean'] of a loss function). *)
Definition mean_all (t : Tensor) : scalar :=
  if Nat.eqb (numel t) 0 then NaN
  else Fin (sum_upto (size0 t) (sum_dims12 t) / INR (numel t)).

(** ** torch.nn.functional.smooth_l1_loss *)

(** One entry of the smooth-L1 distance with the default [beta = 1]:
    [z = |input - target|], then [0.5 * z * z] where [z < 1] and [z - 0.5]
    elsewhere. *)
Definition smooth_l1 (x y : R) : R :=
  let z := Rabs (x - y) in
  if Rlt_dec z 1 then 0.5 * z * z else z - 0.5.

(** [F.smooth_l1_loss(input, target)] with the default [reduction='mean']:
    the arguments are broadcast against each other first. *)
Definition smooth_l1_loss (input target : Tensor) : result scalar :=
  z <- map2 smooth_l1 input target ;;
  Returns (mean_all z).

(** ** SmoothL1Loss *)

Module SmoothL1Loss.

Record t : Type := init {
  use_target_weight : bool;
  loss_weight : R
}.

(** [SmoothL1Loss()] with the default arguments. *)
Definition default : t :=
  {| use_target_weight := false; loss_weight := 1 |}.

Definition criterion : Tensor -> Tensor -> result scalar := smooth_l1_loss.

Definition forward (self : t) (output target target_weight : Tensor)
  : result scalar :=
  let num_joints := size1 output in
  loss <- (if use_target_weight self then
             o <- mul output target_weight ;;
             g <- mul target target_weight ;;
             criterion o g
           else criterion output target) ;;
  Returns (mul_weight (div_count loss num_joints) (loss_weight self)).

End SmoothL1Loss.

(** ** WingLoss *)

Module WingLoss.

Record t : Type := init {
  omega : R;
  epsilon : R;
  use_target_weight : bool;
  loss_weight : R
}.

(** [WingLoss()] with the default arguments. *)
Definition default : t :=
  {| omega := 10; epsilon := 2; use_target_weight := false;
     loss_weight := 1 |}.

(** [math.log(x)]. *)
Definition math_log (x : R) : result R :=
  if Rlt_dec 0 x then Returns (ln x) else Raises ValueError.

(** Python's [a / b] on numbers. *)
Definition py_div (a b : R) : result R :=
  if Req_dec_T b 0 then Raises ZeroDivisionError else Returns (a / b).

(** [c = self.omega * (1.0 - math.log(1.0 + self.omega / self.epsilon))]. *)
Definition offset (self : t) : result R :=
  q <- py_div (omega self) (epsilon self) ;;
  l <- math_log (1 + q) ;;
  Returns (omega self * (1 - l)).

(** The two branches handed to [torch.where]. *)
Definition log_branch (self : t) (delta : R) : R :=
  omega self * ln (1 + delta / epsilon self).

Definition linear_branch (c delta : R) : R := delta - c.

(** [torch.where(torch.lt(delta, omega), log_branch, linear_branch)] at one
    entry.  [torch.where] only selects, so the branch not taken does not
    influence the value. *)
Definition wing (self : t) (c delta : R) : R :=
  if Rlt_dec delta (omega self) then log_branch self delta
  else linear_branch c delta.

Definition criterion (self : t) (pred target : Tensor) : result scalar :=
  diff <- sub target pred ;;
  let delta := abs diff in
  c <- offset self ;;
  let losses := map1 (wing self c) delta in
  Returns (mean_dim0 (size0 losses) (sum_dims12 losses)).

Definition forward (self : t) (output target target_weight : Tensor)
  : result scalar :=
  let num_joints := size1 output in
  loss <- (if use_target_weight self then
             o <- mul output target_weight ;;
             g <- mul target target_weight ;;
             criterion self o g
           else criterion self output target) ;;
  Returns (mul_weight (div_count loss num_joints) (loss_weight self)).

End WingLoss.

(** ** The formulas of the specification *)

Fixpoint list_sum (l : list R) : R :=
  match l with
  | [] => 0
  | x :: r => x + list_sum r
  end.

(** The mean of a list of numbers; there is none for the empty list. *)
Definition list_mean (l : list R) : scalar :=
  match l with
  | [] => NaN
  | _ :: _ => Fin (list_sum l / INR (length l))
  end.

(** The entries of sample [i] of [f (prediction, target)], joint by joint. *)
Definition sample_entries (f : R -> R -> R) (prediction target : Tensor)
    (i : nat) : list R :=
  flat_map
    (fun j => map (fun d => f (at_ prediction i j d) (at_ target i j d))
                  (seq 0 (size2 prediction)))
    (seq 0 (size1 prediction)).

(** All entries of [f (prediction, target)], sample by sample. *)
Definition all_entries (f : R -> R -> R) (prediction target : Tensor)
    : list R :=
  flat_map (sample_entries f prediction target) (seq 0 (size0 prediction)).

(** "0.5 x^2 for |x| < 1 and |x| - 0.5 otherwise". *)
Definition spec_smooth_l1 (x : R) : R :=
  if Rlt_dec (Rabs x) 1 then 0.5 * x ^ 2 else Rabs x - 0.5.

(** "compute elementwise smooth-L1 distance of x = prediction - target,
    average it into a scalar, divide by the number of joints K, and multiply
    by the configured scale". *)
Definition spec_smooth_l1_loss (scale : R) (prediction target : Tensor)
    : scalar :=
  let distance := all_entries (fun p g => spec_smooth_l1 (p - g))
                              prediction target in
  mul_weight (div_count (list_mean distance) (size1 prediction)) scale.

(** "C = omega (1 - ln (1 + omega / epsilon))". *)
Definition spec_wing_constant (w e : R) : R := w * (1 - ln (1 + w / e)).

(** "if delta < omega: omega ln (1 + delta / epsilon); else: delta - C". *)
Definition spec_wing (w e delta : R) : R :=
  if Rlt_dec delta w then w * ln (1 + delta / e)
  else delta - spec_wing_constant w e.

(** "Sum the per-sample loss over the joint and coordinate dimensions, then
    average over the batch, divide by joint count K, and scale by the
    configured weight", with delta = |prediction - target|. *)
Definition spec_wing_loss (w e scale : R) (prediction target : Tensor)
    : scalar :=
  let per_sample i :=
    list_sum (sample_entries (fun p g => spec_wing w e (Rabs (p - g)))
                             prediction target i) in
  mul_weight
    (div_count (list_mean (map per_sample (seq 0 (size0 prediction))))
               (size1 prediction))
    scale.

(** ** Inputs used in the statements *)

(** Same shape and the same entries inside it. *)
Definition tensor_eq (a b : Tensor) : Prop :=
  shape a = shape b /\
  forall i j d, (i < size0 a)%nat -> (j < size1 a)%nat -> (d < size2 a)%nat ->
                at_ a i j d = at_ b i j d.

(** Every entry is zero. *)
Definition all_zero (a : Tensor) : Prop :=
  forall i j d, (i < size0 a)%nat -> (j < size1 a)%nat -> (d < size2 a)%nat ->
                at_ a i j d = 0.

(** No dimension is empty. *)
Definition nonempty (a : Tensor) : Prop :=
  (0 < size0 a)%nat /\ (0 < size1 a)%nat /\ (0 < size2 a)%nat.

(** The sample [a[0]] repeated [n] times along the batch dimension. *)
Definition repeat_batch (n : nat) (a : Tensor) : Tensor :=
  {| size0 := n; size1 := size1 a; size2 := size2 a;
     at_ := fun _ j d => at_ a O j d |}.

(** A tensor of shape [(n0, n1, n2)] filled with [x]. *)
Definition full (n0 n1 n2 : nat) (x : R) : Tensor :=
  {| size0 := n0; size1 := n1; size2 := n2; at_ := fun _ _ _ => x |}.

(** What "the returned scalar is nonnegative" asks of a scalar. *)
Definition nonnegative (s : scalar) : Prop :=
  match s with
  | Fin r => 0 <= r
  | PosInf => True
  | NegInf => False
  | NaN => False
  end.

(** The entrywise combination of two tensors of one shape. *)
Definition zip (f : R -> R -> R) (a b : Tensor) : Tensor :=
  {| size0 := size0 a; size1 := size1 a; size2 := size2 a;
     at_ := fun i j d => f (at_ a i j d) (at_ b i j d) |}.

(** The tensor a loss hands to its criterion. *)
Definition weighted (use_target_weight : bool) (x target_weight : Tensor)
    : Tensor :=
  if use_target_weight then zip Rmult x target_weight else x.

(** The concrete scenario: one sample, one joint. *)
Definition scenario_output : Tensor := of_list [[[0; 0]]].
Definition scenario_target : Tensor := of_list [[[1; 0]]].
Definition scenario_weight : Tensor := of_list [[[1; 1]]].

(** A batch without samples, of shape [(0, 1, 2)]. *)
Definition empty_batch : Tensor := full 0 1 2 0.

(** A batch of one sample without joints, of shape [(1, 0, 2)]. *)
Definition no_joints : Tensor := full 1 0 2 0.

(** Twice a scalar. *)
Definition double (s : scalar) : scalar :=
  match s with
  | Fin r => Fin (2 * r)
  | PosInf => PosInf
  | NegInf => NegInf
  | NaN => NaN
  end.

(** ** Further inputs and relations *)

(** Two outcomes of a tensor operation that a loss cannot tell apart: the
    same exception, or tensors of one shape with the same entries. *)
Definition same_outcome (r r' : result Tensor) : Prop :=
  match r, r' with
  | Returns z, Returns z' => tensor_eq z z'
  | Raises e, Raises e' => e = e'
  | _, _ => False
  end.

(** The last two lines of both [forward] methods:
    [loss / num_joints * self.loss_weight]. *)
Definition normalise (num_joints : nat) (loss_weight : R)
    (loss : result scalar) : result scalar :=
  l <- loss ;;
  Returns (mul_weight (div_count l num_joints) loss_weight).

(** A per-joint weight of shape [(N, K, 1)] written out for [n2]
    coordinates. *)
Definition expand_last (n2 : nat) (w : Tensor) : Tensor :=
  {| size0 := size0 w; size1 := size1 w; size2 := n2;
     at_ := fun i j _ => at_ w i j O |}.

(** The entrywise sum of two tensors of one shape. *)
Definition add (a b : Tensor) : Tensor := zip Rplus a b.

(** Two dimensions that cannot be broadcast against each other. *)
Definition incompatible (a b : nat) : Prop :=
  a <> b /\ a <> 1%nat /\ b <> 1%nat.

(** Two tensors that cannot be broadcast against each other. *)
Definition mismatch (a b : Tensor) : Prop :=
  incompatible (size0 a) (size0 b) \/
  incompatible (size1 a) (size1 b) \/
  incompatible (size2 a) (size2 b).


(** The batch of one sample [t[i:i+1]]. *)
Definition sample (i : nat) (t : Tensor) : Tensor :=
  {| size0 := 1; size1 := size1 t; size2 := size2 t;
     at_ := fun _ j d => at_ t i j d |}.

(** * Properties *)

(** ** Sums *)

Lemma sum_upto_ext n f g :
  (forall i, (i < n)%nat -> f i = g i) -> sum_upto n f = sum_upto n g.
Proof.
  induction n as [|n IH]; intros H; simpl; [reflexivity|].
  rewrite IH by (intros; apply H; lia).
  rewrite (H n) by lia. reflexivity.
Qed.

Lemma sum_upto_const n c : sum_upto n (fun _ => c) = INR n * c.
Proof.
  induction n as [|n IH]; [simpl; ring|].
  change (sum_upto (S n) (fun _ => c)) with (sum_upto n (fun _ => c) + c).
  rewrite IH, S_INR. ring.
Qed.

Lemma sum_upto_zero n f :
  (forall i, (i < n)%nat -> f i = 0) -> sum_upto n f = 0.
Proof.
  intros H. rewrite (sum_upto_ext n f (fun _ => 0) H), sum_upto_const. ring.
Qed.

Lemma sum_upto_nonneg n f :
  (forall i, (i < n)%nat -> 0 <= f i) -> 0 <= sum_upto n f.
Proof.
  induction n as [|n IH]; intros H; simpl; [lra|].
  assert (0 <= sum_upto n f) by (apply IH; intros; apply H; lia).
  assert (0 <= f n) by (apply H; lia). lra.
Qed.

Lemma list_sum_app l1 l2 : list_sum (l1 ++ l2) = list_sum l1 + list_sum l2.
Proof. induction l1 as [|x l1 IH]; simpl; [ring | rewrite IH; ring]. Qed.

Lemma list_sum_map_seq (f : nat -> R) n :
  list_sum (map f (seq 0 n)) = sum_upto n f.
Proof.
  induction n as [|n IH]; [reflexivity|].
  rewrite seq_S, map_app, list_sum_app, IH. simpl. ring.
Qed.

Lemma list_sum_flat_map_seq (f : nat -> list R) n :
  list_sum (flat_map f (seq 0 n)) = sum_upto n (fun i => list_sum (f i)).
Proof.
  induction n as [|n IH]; [reflexivity|].
  rewrite seq_S, flat_map_app, list_sum_app, IH. simpl.
  rewrite app_nil_r. reflexivity.
Qed.

Lemma length_flat_map_seq (f : nat -> list R) n m :
  (forall i, length (f i) = m) -> length (flat_map f (seq 0 n)) = (n * m)%nat.
Proof.
  intros H. induction n as [|n IH]; [reflexivity|].
  rewrite seq_S, flat_map_app, length_app, IH. simpl.
  rewrite app_nil_r, H. lia.
Qed.

(** ** Tensors of one shape *)

Lemma broadcast_size_same n : broadcast_size n n = Some n.
Proof. unfold broadcast_size. rewrite Nat.eqb_refl. reflexivity. Qed.

Lemma expand_index_inside n i : (i < n)%nat -> expand_index n i = i.
Proof.
  unfold expand_index. intros H.
  destruct (Nat.eqb_spec n 1) as [->|_]; [lia | reflexivity].
Qed.

Lemma shape_eq a b :
  shape a = shape b ->
  size0 a = size0 b /\ size1 a = size1 b /\ size2 a = size2 b.
Proof. unfold shape. intros H. inversion H. auto. Qed.

Lemma tensor_eq_refl a : tensor_eq a a.
Proof. split; [reflexivity | auto]. Qed.

Lemma tensor_eq_sym a b : tensor_eq a b -> tensor_eq b a.
Proof.
  intros [Hs H]. destruct (shape_eq _ _ Hs) as (H0 & H1 & H2).
  split; [auto|]. intros i j d Hi Hj Hd. symmetry. apply H; lia.
Qed.

Lemma tensor_eq_trans a b c : tensor_eq a b -> tensor_eq b c -> tensor_eq a c.
Proof.
  intros [Hs H] [Hs' H']. destruct (shape_eq _ _ Hs) as (H0 & H1 & H2).
  split; [congruence|]. intros i j d Hi Hj Hd.
  rewrite H by assumption. apply H'; lia.
Qed.

Lemma zip_proper f a a' b b' :
  tensor_eq a a' -> tensor_eq b b' -> shape a = shape b ->
  tensor_eq (zip f a b) (zip f a' b').
Proof.
  intros [Hs H] [Hs' H'] Hab.
  destruct (shape_eq _ _ Hs) as (H0 & H1 & H2).
  destruct (shape_eq _ _ Hab) as (G0 & G1 & G2).
  split; [unfold shape; simpl; congruence|].
  simpl. intros i j d Hi Hj Hd.
  rewrite H by assumption. rewrite H' by lia. reflexivity.
Qed.

Lemma map1_proper f a b : tensor_eq a b -> tensor_eq (map1 f a) (map1 f b).
Proof.
  intros [Hs H]. destruct (shape_eq _ _ Hs) as (H0 & H1 & H2).
  split; [unfold shape; simpl; congruence|].
  simpl. intros i j d Hi Hj Hd. rewrite H by assumption. reflexivity.
Qed.

(** On tensors of one shape broadcasting does nothing. *)
Lemma map2_same_shape f a b :
  shape a = shape b ->
  exists z, map2 f a b = Returns z /\ tensor_eq z (zip f a b).
Proof.
  intros Hs. destruct (shape_eq _ _ Hs) as (H0 & H1 & H2).
  unfold map2. rewrite <- H0, <- H1, <- H2, !broadcast_size_same.
  eexists. split; [reflexivity|].
  split; [reflexivity|]. simpl. intros i j d Hi Hj Hd.
  rewrite !expand_index_inside by assumption. reflexivity.
Qed.

Lemma sum_dims12_proper a b i :
  tensor_eq a b -> (i < size0 a)%nat -> sum_dims12 a i = sum_dims12 b i.
Proof.
  intros [Hs H] Hi. destruct (shape_eq _ _ Hs) as (H0 & H1 & H2).
  unfold sum_dims12. rewrite <- H1, <- H2.
  apply sum_upto_ext. intros j Hj. apply sum_upto_ext. intros d Hd.
  apply H; assumption.
Qed.

Lemma mean_all_proper a b : tensor_eq a b -> mean_all a = mean_all b.
Proof.
  intros E. pose proof E as [Hs _].
  destruct (shape_eq _ _ Hs) as (H0 & H1 & H2).
  unfold mean_all, numel. rewrite <- H0, <- H1, <- H2.
  rewrite (sum_upto_ext _ (sum_dims12 a) (sum_dims12 b)); [reflexivity|].
  intros i Hi. apply sum_dims12_proper; assumption.
Qed.

Lemma mean_dim0_sum_proper a b :
  tensor_eq a b ->
  mean_dim0 (size0 a) (sum_dims12 a) = mean_dim0 (size0 b) (sum_dims12 b).
Proof.
  intros E. pose proof E as [Hs _].
  destruct (shape_eq _ _ Hs) as (H0 & H1 & H2).
  unfold mean_dim0. rewrite <- H0.
  rewrite (sum_upto_ext _ (sum_dims12 a) (sum_dims12 b)); [reflexivity|].
  intros i Hi. apply sum_dims12_proper; assumption.
Qed.

(** The arguments of the criterion when the three inputs have one shape. *)
Lemma weighted_inputs uw output target target_weight :
  shape output = shape target ->
  (uw = true -> shape target_weight = shape output) ->
  exists o g,
    (if uw then
       o' <- mul output target_weight ;;
       g' <- mul target target_weight ;;
       Returns (o', g')
     else Returns (output, target)) = Returns (o, g) /\
    tensor_eq o (weighted uw output target_weight) /\
    tensor_eq g (weighted uw target target_weight).
Proof.
  intros Hs Hw. destruct uw; simpl.
  - specialize (Hw eq_refl).
    destruct (map2_same_shape Rmult output target_weight) as (o & Eo & Ho);
      [congruence|].
    destruct (map2_same_shape Rmult target target_weight) as (g & Eg & Hg);
      [congruence|].
    exists o, g. unfold mul. rewrite Eo, Eg. simpl. auto.
  - exists output, target. auto using tensor_eq_refl.
Qed.

Lemma shape_weighted uw x w : shape (weighted uw x w) = shape x.
Proof. destruct uw; reflexivity. Qed.

(** [SmoothL1Loss.forward] on three tensors of one shape. *)
Lemma smooth_forward_same_shape self output target target_weight :
  shape output = shape target ->
  (SmoothL1Loss.use_target_weight self = true ->
   shape target_weight = shape output) ->
  SmoothL1Loss.forward self output target target_weight =
  Returns
    (mul_weight
       (div_count
          (mean_all
             (zip smooth_l1
                (weighted (SmoothL1Loss.use_target_weight self)
                          output target_weight)
                (weighted (SmoothL1Loss.use_target_weight self)
                          target target_weight)))
          (size1 output))
       (SmoothL1Loss.loss_weight self)).
Proof.
  intros Hs Hw.
  destruct (weighted_inputs _ _ _ _ Hs Hw) as (o & g & E & Ho & Hg).
  assert (Hog : shape o = shape g).
  { destruct Ho as [-> _], Hg as [-> _]. rewrite !shape_weighted. exact Hs. }
  destruct (map2_same_shape smooth_l1 o g Hog) as (z & Ez & Hz).
  assert (L : (if SmoothL1Loss.use_target_weight self then
                 o' <- mul output target_weight ;;
                 g' <- mul target target_weight ;;
                 SmoothL1Loss.criterion o' g'
               else SmoothL1Loss.criterion output target) =
              Returns (mean_all z)).
  { unfold SmoothL1Loss.criterion, smooth_l1_loss.
    destruct (SmoothL1Loss.use_target_weight self).
    - destruct (mul output target_weight); [|discriminate]. simpl in *.
      destruct (mul target target_weight); [|discriminate]. simpl in *.
      inversion E; subst. rewrite Ez. reflexivity.
    - inversion E; subst. rewrite Ez. reflexivity. }
  unfold SmoothL1Loss.forward. rewrite L. simpl.
  rewrite (mean_all_proper z _ (tensor_eq_trans _ _ _ Hz
             (zip_proper smooth_l1 _ _ _ _ Ho Hg Hog))).
  reflexivity.
Qed.

(** [WingLoss.forward] on three tensors of one shape: the only step left
    that can fail is the computation of the constant [c]. *)
Lemma wing_forward_same_shape self output target target_weight :
  shape output = shape target ->
  (WingLoss.use_target_weight self = true ->
   shape target_weight = shape output) ->
  WingLoss.forward self output target target_weight =
  c <- WingLoss.offset self ;;
  Returns
    (mul_weight
       (div_count
          (mean_dim0 (size0 output)
             (sum_dims12
                (map1 (WingLoss.wing self c)
                   (abs (zip Rminus
                           (weighted (WingLoss.use_target_weight self)
                                     target target_weight)
                           (weighted (WingLoss.use_target_weight self)
                                     output target_weight))))))
          (size1 output))
       (WingLoss.loss_weight self)).
Proof.
  intros Hs Hw.
  destruct (weighted_inputs _ _ _ _ Hs Hw) as (o & g & E & Ho & Hg).
  assert (Hgo : shape g = shape o).
  { destruct Ho as [-> _], Hg as [-> _]. rewrite !shape_weighted. auto. }
  destruct (map2_same_shape Rminus g o Hgo) as (z & Ez & Hz).
  pose proof (tensor_eq_trans _ _ _ Hz (zip_proper Rminus _ _ _ _ Hg Ho Hgo))
    as Hz'.
  assert (L : (if WingLoss.use_target_weight self then
                 o' <- mul output target_weight ;;
                 g' <- mul target target_weight ;;
                 WingLoss.criterion self o' g'
               else WingLoss.criterion self output target) =
              WingLoss.criterion self o g).
  { destruct (WingLoss.use_target_weight self).
    - destruct (mul output target_weight); [|discriminate]. simpl in *.
      destruct (mul target target_weight); [|discriminate]. simpl in *.
      inversion E; subst. reflexivity.
    - inversion E; subst. reflexivity. }
  unfold WingLoss.forward. rewrite L.
  unfold WingLoss.criterion, sub. rewrite Ez. simpl.
  destruct (WingLoss.offset self) as [c|e]; [|reflexivity]. simpl.
  pose proof (map1_proper (WingLoss.wing self c) _ _
                (map1_proper Rabs _ _ Hz')) as Hl.
  pose proof (mean_dim0_sum_proper _ _ Hl) as Hm. simpl in Hm.
  unfold abs. rewrite Hm.
  destruct (shape_eq _ _ (shape_weighted (WingLoss.use_target_weight self)
                            target target_weight)) as (-> & _ & _).
  destruct (shape_eq _ _ Hs) as (-> & _ & _).
  reflexivity.
Qed.

(** The constant is computed exactly when [epsilon] is not zero and the
    argument of the logarithm is positive. *)
Lemma offset_defined self :
  WingLoss.epsilon self <> 0 ->
  0 < 1 + WingLoss.omega self / WingLoss.epsilon self ->
  WingLoss.offset self =
  Returns (WingLoss.omega self *
           (1 - ln (1 + WingLoss.omega self / WingLoss.epsilon self))).
Proof.
  intros He Hl. unfold WingLoss.offset, WingLoss.py_div, WingLoss.math_log.
  destruct (Req_dec_T (WingLoss.epsilon self) 0) as [E|_]; [contradiction|].
  simpl.
  destruct (Rlt_dec 0 (1 + WingLoss.omega self / WingLoss.epsilon self));
    [reflexivity | contradiction].
Qed.

Lemma offset_undefined self :
  WingLoss.epsilon self = 0 \/
  1 + WingLoss.omega self / WingLoss.epsilon self <= 0 ->
  exists e, WingLoss.offset self = Raises e.
Proof.
  intros H. unfold WingLoss.offset, WingLoss.py_div, WingLoss.math_log.
  destruct (Req_dec_T (WingLoss.epsilon self) 0) as [E|E].
  - exists ZeroDivisionError. reflexivity.
  - simpl.
    destruct (Rlt_dec 0 (1 + WingLoss.omega self / WingLoss.epsilon self)).
    + destruct H; [contradiction | lra].
    + exists ValueError. reflexivity.
Qed.

(** With positive [omega] and [epsilon] the constant is computed. *)
Lemma offset_positive self :
  0 < WingLoss.omega self -> 0 < WingLoss.epsilon self ->
  WingLoss.offset self =
  Returns (WingLoss.omega self *
           (1 - ln (1 + WingLoss.omega self / WingLoss.epsilon self))).
Proof.
  intros Hw He. apply offset_defined; [lra|].
  assert (0 < WingLoss.omega self / WingLoss.epsilon self)
    by (apply Rdiv_lt_0_compat; assumption).
  lra.
Qed.

(** Where the constant is not defined, [forward] raises on inputs of one
    shape instead of returning a loss. *)
Lemma wing_forward_raises self output target target_weight :
  shape output = shape target ->
  (WingLoss.use_target_weight self = true ->
   shape target_weight = shape output) ->
  WingLoss.epsilon self = 0 \/
  1 + WingLoss.omega self / WingLoss.epsilon self <= 0 ->
  exists e, WingLoss.forward self output target target_weight = Raises e.
Proof.
  intros Hs Hw Hc. rewrite wing_forward_same_shape by assumption.
  destruct (offset_undefined self Hc) as (e & ->). exists e. reflexivity.
Qed.

(** Whenever the constant is computed, the logarithm of the branch that
    [torch.where] selects has a positive argument, so the value of the
    entry never depends on the logarithm of a non-positive number. *)
Lemma selected_log_defined self c delta :
  WingLoss.offset self = Returns c ->
  0 <= delta -> delta < WingLoss.omega self ->
  0 < 1 + delta / WingLoss.epsilon self.
Proof.
  unfold WingLoss.offset, WingLoss.py_div, WingLoss.math_log.
  destruct (Req_dec_T (WingLoss.epsilon self) 0) as [E|E]; [discriminate|].
  simpl.
  destruct (Rlt_dec 0 (1 + WingLoss.omega self / WingLoss.epsilon self))
    as [P|_]; [|discriminate].
  intros _ H0 Hlt.
  destruct (Rlt_dec 0 (WingLoss.epsilon self)) as [He|He].
  - assert (0 <= delta / WingLoss.epsilon self).
    { apply Rmult_le_pos; [assumption|].
      left. apply Rinv_0_lt_compat. assumption. }
    lra.
  - assert (He' : WingLoss.epsilon self < 0) by lra.
    assert (Hi : / WingLoss.epsilon self < 0)
      by (apply Rinv_lt_0_compat; assumption).
    unfold Rdiv in *.
    assert (WingLoss.omega self * / WingLoss.epsilon self
            <= delta * / WingLoss.epsilon self) by nra.
    lra.
Qed.

(** ** Entries as lists *)

Lemma list_mean_length l :
  list_mean l =
  if Nat.eqb (length l) 0 then NaN else Fin (list_sum l / INR (length l)).
Proof. destruct l; reflexivity. Qed.

Lemma sample_entries_length f p g i :
  length (sample_entries f p g i) = (size1 p * size2 p)%nat.
Proof.
  unfold sample_entries. apply length_flat_map_seq.
  intros j. rewrite length_map, length_seq. reflexivity.
Qed.

Lemma sample_entries_sum f p g i :
  list_sum (sample_entries f p g i) = sum_dims12 (zip f p g) i.
Proof.
  unfold sample_entries, sum_dims12. rewrite list_sum_flat_map_seq. simpl.
  apply sum_upto_ext. intros j _. apply list_sum_map_seq.
Qed.

Lemma all_entries_length f p g : length (all_entries f p g) = numel p.
Proof.
  unfold all_entries, numel.
  rewrite (length_flat_map_seq _ _ (size1 p * size2 p)%nat).
  - lia.
  - intros i. apply sample_entries_length.
Qed.

Lemma all_entries_sum f p g :
  list_sum (all_entries f p g) = sum_upto (size0 p) (sum_dims12 (zip f p g)).
Proof.
  unfold all_entries. rewrite list_sum_flat_map_seq.
  apply sum_upto_ext. intros i _. apply sample_entries_sum.
Qed.

Lemma all_entries_mean f p g :
  list_mean (all_entries f p g) = mean_all (zip f p g).
Proof.
  rewrite list_mean_length, all_entries_length, all_entries_sum.
  reflexivity.
Qed.

(** ** The entries of the two losses *)

Lemma spec_smooth_l1_eq x y : smooth_l1 x y = spec_smooth_l1 (x - y).
Proof.
  unfold smooth_l1, spec_smooth_l1. simpl.
  destruct (Rlt_dec (Rabs (x - y)) 1); [|reflexivity].
  unfold Rabs. destruct (Rcase_abs (x - y)); ring.
Qed.

Lemma smooth_l1_same x : smooth_l1 x x = 0.
Proof.
  unfold smooth_l1. simpl. rewrite Rminus_diag, Rabs_R0.
  destruct (Rlt_dec 0 1); lra.
Qed.

Lemma smooth_l1_far x y :
  1 <= Rabs (x - y) -> smooth_l1 x y = Rabs (x - y) - 0.5.
Proof.
  intros H. unfold smooth_l1. simpl.
  destruct (Rlt_dec (Rabs (x - y)) 1); [lra | reflexivity].
Qed.

Lemma smooth_l1_nonneg x y : 0 <= smooth_l1 x y.
Proof.
  unfold smooth_l1. simpl. pose proof (Rabs_pos (x - y)).
  destruct (Rlt_dec (Rabs (x - y)) 1); nra.
Qed.

Lemma spec_wing_eq self delta :
  WingLoss.wing self
    (WingLoss.omega self *
     (1 - ln (1 + WingLoss.omega self / WingLoss.epsilon self))) delta =
  spec_wing (WingLoss.omega self) (WingLoss.epsilon self) delta.
Proof. reflexivity. Qed.

Lemma wing_zero self c : 0 < WingLoss.omega self -> WingLoss.wing self c 0 = 0.
Proof.
  intros H. unfold WingLoss.wing, WingLoss.log_branch.
  destruct (Rlt_dec 0 (WingLoss.omega self)); [|lra].
  unfold Rdiv. rewrite Rmult_0_l, Rplus_0_r, ln_1. ring.
Qed.

Lemma ln_nonneg x : 1 <= x -> 0 <= ln x.
Proof.
  intros [H|<-]; [|rewrite ln_1; lra].
  left. rewrite <- ln_1. apply ln_increasing; lra.
Qed.

Lemma wing_nonneg self delta :
  0 < WingLoss.omega self -> 0 < WingLoss.epsilon self -> 0 <= delta ->
  0 <= WingLoss.wing self
         (WingLoss.omega self *
          (1 - ln (1 + WingLoss.omega self / WingLoss.epsilon self))) delta.
Proof.
  intros Hw He Hd.
  unfold WingLoss.wing, WingLoss.log_branch, WingLoss.linear_branch.
  assert (Hi : 0 < / WingLoss.epsilon self) by (apply Rinv_0_lt_compat; lra).
  destruct (Rlt_dec delta (WingLoss.omega self)) as [Hlt|Hge].
  - apply Rmult_le_pos; [lra|]. apply ln_nonneg. unfold Rdiv. nra.
  - assert (0 <= ln (1 + WingLoss.omega self / WingLoss.epsilon self))
      by (apply ln_nonneg; unfold Rdiv; nra).
    nra.
Qed.

(** ** SmoothL1Loss: the value computed *)

Lemma scenario_smooth_value :
  SmoothL1Loss.forward SmoothL1Loss.default
    scenario_output scenario_target scenario_weight =
  Returns (Fin ((0.5 + 0) / 2 / 1 * 1)).
Proof.
  rewrite smooth_forward_same_shape by (reflexivity || discriminate).
  cbn [SmoothL1Loss.use_target_weight SmoothL1Loss.default weighted
       SmoothL1Loss.loss_weight].
  unfold mean_all, numel, sum_dims12.
  cbn [scenario_output scenario_target zip of_list size0 size1 size2 length
       hd Nat.mul Nat.eqb Nat.add sum_upto at_ nth div_count mul_weight].
  rewrite smooth_l1_same, smooth_l1_far.
  - replace (Rabs (0 - 1)) with 1.
    + do 2 f_equal. simpl. lra.
    + replace (0 - 1) with (- (1)) by ring.
      rewrite Rabs_Ropp, Rabs_R1. reflexivity.
  - replace (0 - 1) with (- (1)) by ring.
    rewrite Rabs_Ropp, Rabs_R1. lra.
Qed.

(** C1, as stated, fails: in the scenario N = 1, K = 1, output = [[[0,0]]],
    target = [[[1,0]]], weight = [[[1,1]]], use_target_weight = false,
    loss_weight = 1, [SmoothL1Loss.forward] does not return 0.5. *)
Lemma scenario_smooth_l1_is_not_half :
  SmoothL1Loss.forward SmoothL1Loss.default
    scenario_output scenario_target scenario_weight <> Returns (Fin 0.5).
Proof.
  rewrite scenario_smooth_value. intros H. inversion H. lra.
Qed.

(** C1, amended: in that scenario [SmoothL1Loss.forward] returns 0.25: the
    two entries 0.5 and 0 are averaged over both coordinates before the
    division by K = 1. *)
Theorem scenario_smooth_l1_is_quarter :
  SmoothL1Loss.forward SmoothL1Loss.default
    scenario_output scenario_target scenario_weight = Returns (Fin 0.25).
Proof.
  rewrite scenario_smooth_value. do 2 f_equal. lra.
Qed.

Lemma smooth_formula_same_shape self output target target_weight :
  SmoothL1Loss.use_target_weight self = false ->
  shape output = shape target ->
  SmoothL1Loss.forward self output target target_weight =
  Returns (spec_smooth_l1_loss (SmoothL1Loss.loss_weight self) output target).
Proof.
  intros Hu Hs.
  rewrite smooth_forward_same_shape by (assumption || congruence).
  rewrite Hu. unfold weighted, spec_smooth_l1_loss.
  rewrite all_entries_mean.
  rewrite (mean_all_proper (zip smooth_l1 output target)
             (zip (fun p g => spec_smooth_l1 (p - g)) output target));
    [reflexivity|].
  split; [reflexivity|]. simpl. intros. apply spec_smooth_l1_eq.
Qed.

(** C2: for output and target of shape (N, K, 2) and use_target_weight =
    false, [SmoothL1Loss.forward] returns the mean over all N*K*2 entries of
    the smooth-L1 distance of x = prediction - target, divided by K and
    multiplied by loss_weight; where the mean exists (N, K >= 1) this is the
    real number (sum / (N*K*2)) / K * loss_weight. *)
Theorem smooth_l1_forward_is_formula :
  forall self output target target_weight (N K : nat),
    SmoothL1Loss.use_target_weight self = false ->
    shape output = (N, K, 2%nat) ->
    shape target = (N, K, 2%nat) ->
    SmoothL1Loss.forward self output target target_weight =
    Returns (spec_smooth_l1_loss (SmoothL1Loss.loss_weight self) output target)
    /\
    ((0 < N)%nat -> (0 < K)%nat ->
     spec_smooth_l1_loss (SmoothL1Loss.loss_weight self) output target =
     Fin (list_sum (all_entries (fun p g => spec_smooth_l1 (p - g))
                                output target)
          / INR (N * K * 2) / INR K * SmoothL1Loss.loss_weight self)).
Proof.
  intros self output target target_weight N K Hu Ho Ht. split.
  - apply smooth_formula_same_shape; congruence.
  - intros HN HK. unfold spec_smooth_l1_loss.
    destruct (shape_eq output (mkTensor N K 2 (fun _ _ _ => 0)) Ho)
      as (H0 & H1 & H2). simpl in H0, H1, H2.
    rewrite list_mean_length, all_entries_length. unfold numel.
    rewrite H0, H1, H2.
    destruct (Nat.eqb_spec (N * K * 2) 0) as [E|_]; [nia|].
    simpl. destruct (Nat.eqb_spec K 0) as [E|_]; [lia|]. reflexivity.
Qed.

(** The statement at the default loss and the scenario tensors. *)
Lemma smooth_l1_forward_is_formula_witness :
  SmoothL1Loss.forward SmoothL1Loss.default
    scenario_output scenario_target scenario_weight =
  Returns (spec_smooth_l1_loss 1 scenario_output scenario_target)
  /\
  spec_smooth_l1_loss 1 scenario_output scenario_target =
  Fin (list_sum (all_entries (fun p g => spec_smooth_l1 (p - g))
                             scenario_output scenario_target)
       / INR (1 * 1 * 2) / INR 1 * 1).
Proof.
  destruct (smooth_l1_forward_is_formula SmoothL1Loss.default
              scenario_output scenario_target scenario_weight 1 1
              eq_refl eq_refl eq_refl) as [H1 H2].
  split; [exact H1 | apply H2; lia].
Defined.

(** ** WingLoss: the value computed *)

Lemma spec_wing_loss_same_shape self output target target_weight :
  WingLoss.epsilon self <> 0 ->
  0 < 1 + WingLoss.omega self / WingLoss.epsilon self ->
  WingLoss.use_target_weight self = false ->
  shape output = shape target ->
  WingLoss.forward self output target target_weight =
  Returns (spec_wing_loss (WingLoss.omega self) (WingLoss.epsilon self)
                        (WingLoss.loss_weight self) output target).
Proof.
  intros He Hl Hu Hs.
  rewrite wing_forward_same_shape by (assumption || congruence).
  rewrite offset_defined by assumption. simpl.
  rewrite Hu. unfold weighted, spec_wing_loss. do 3 f_equal.
  rewrite list_mean_length, length_map, length_seq, list_sum_map_seq.
  unfold mean_dim0.
  rewrite (sum_upto_ext (size0 output)
             (sum_dims12
                (map1 (WingLoss.wing self
                         (WingLoss.omega self *
                          (1 - ln (1 + WingLoss.omega self /
                                       WingLoss.epsilon self))))
                      (abs (zip Rminus target output))))
             (fun i =>
                list_sum
                  (sample_entries
                     (fun p g =>
                        spec_wing (WingLoss.omega self)
                          (WingLoss.epsilon self) (Rabs (p - g)))
                     output target i))); [reflexivity|].
  intros i Hi. rewrite sample_entries_sum.
  destruct (shape_eq _ _ Hs) as (H0 & H1 & H2).
  apply sum_dims12_proper; [|simpl; lia].
  split; [unfold shape; simpl; congruence|].
  simpl. intros i' j d _ _ _.
  rewrite spec_wing_eq, (Rabs_minus_sym (at_ target i' j d)).
  reflexivity.
Qed.

Lemma scenario_wing_value :
  WingLoss.forward WingLoss.default
    scenario_output scenario_target scenario_weight =
  Returns (Fin (10 * ln 1.5)).
Proof.
  rewrite wing_forward_same_shape by (reflexivity || discriminate).
  rewrite offset_positive by (simpl; lra).
  cbn [bind WingLoss.use_target_weight WingLoss.default weighted
       WingLoss.loss_weight WingLoss.omega WingLoss.epsilon].
  unfold mean_dim0, sum_dims12.
  cbn [scenario_output scenario_target zip of_list size0 size1 size2 length
       hd Nat.mul Nat.eqb Nat.add sum_upto at_ nth div_count mul_weight
       abs map1].
  replace (1 - 0) with 1 by ring. replace (0 - 0) with 0 by ring.
  rewrite Rabs_R0, Rabs_R1.
  unfold WingLoss.wing, WingLoss.log_branch.
  change (WingLoss.omega WingLoss.default) with 10.
  change (WingLoss.epsilon WingLoss.default) with 2.
  destruct (Rlt_dec 1 10); [|lra]. destruct (Rlt_dec 0 10); [|lra].
  replace (1 + 0 / 2) with 1 by lra. replace (1 + 1 / 2) with 1.5 by lra.
  rewrite ln_1. do 2 f_equal. simpl. lra.
Qed.

(** ** The value of 10 ln 1.5

    [exp x >= 1 + x] at [x / 2^15], squared fifteen times with the
    intermediate values rounded down to twelve decimals. *)

Lemma exp_doubling b a x :
  a <= exp x -> 0 <= a -> b <= a * a -> b <= exp (2 * x).
Proof.
  intros Hx Ha Hb. replace (2 * x) with (x + x) by ring. rewrite exp_plus.
  apply Rle_trans with (1 := Hb). apply Rmult_le_compat; assumption.
Qed.

Lemma ln_1_5_upper : ln 1.5 < 0.40547.
Proof.
  pose proof (exp_ineq1_le (0.40547 / 32768)) as H.
  apply (exp_doubling 1.000024748077) in H; [|lra|lra].
  apply (exp_doubling 1.000049496766) in H; [|lra|lra].
  apply (exp_doubling 1.000098995981) in H; [|lra|lra].
  apply (exp_doubling 1.000198001762) in H; [|lra|lra].
  apply (exp_doubling 1.000396042728) in H; [|lra|lra].
  apply (exp_doubling 1.000792242305) in H; [|lra|lra].
  apply (exp_doubling 1.001585112257) in H; [|lra|lra].
  apply (exp_doubling 1.003172737094) in H; [|lra|lra].
  apply (exp_doubling 1.006355540448) in H; [|lra|lra].
  apply (exp_doubling 1.012751473790) in H; [|lra|lra].
  apply (exp_doubling 1.025665547663) in H; [|lra|lra].
  apply (exp_doubling 1.051989815662) in H; [|lra|lra].
  apply (exp_doubling 1.106682572256) in H; [|lra|lra].
  apply (exp_doubling 1.224746315735) in H; [|lra|lra].
  apply (exp_doubling 1.500003537906) in H; [|lra|lra].
  match type of H with
  | _ <= exp ?x => replace x with 0.40547 in H by lra
  end.
  rewrite <- (ln_exp 0.40547). apply ln_increasing; lra.
Qed.

Lemma ln_1_5_lower : 0.40546 < ln 1.5.
Proof.
  pose proof (exp_ineq1_le (- 0.40546 / 32768)) as H.
  apply (exp_doubling 0.999975252838) in H; [|lra|lra].
  apply (exp_doubling 0.999950506288) in H; [|lra|lra].
  apply (exp_doubling 0.999901015025) in H; [|lra|lra].
  apply (exp_doubling 0.999802039848) in H; [|lra|lra].
  apply (exp_doubling 0.999604118884) in H; [|lra|lra].
  apply (exp_doubling 0.999208394489) in H; [|lra|lra].
  apply (exp_doubling 0.998417415617) in H; [|lra|lra].
  apply (exp_doubling 0.996837335807) in H; [|lra|lra].
  apply (exp_doubling 0.993684674058) in H; [|lra|lra].
  apply (exp_doubling 0.987409231457) in H; [|lra|lra].
  apply (exp_doubling 0.974976990366) in H; [|lra|lra].
  apply (exp_doubling 0.950580131743) in H; [|lra|lra].
  apply (exp_doubling 0.903602586864) in H; [|lra|lra].
  apply (exp_doubling 0.816497634987) in H; [|lra|lra].
  apply (exp_doubling 0.666668387939) in H; [|lra|lra].
  match type of H with
  | _ <= exp ?x => replace x with (- 0.40546) in H by lra
  end.
  pose proof (exp_pos 0.40546) as P.
  assert (E : exp (- 0.40546) * exp 0.40546 = 1).
  { rewrite <- exp_plus. replace (- 0.40546 + 0.40546) with 0 by lra.
    apply exp_0. }
  rewrite <- (ln_exp 0.40546). apply ln_increasing; [assumption | nra].
Qed.

(** C3: for output and target of shape (N, K, 2) and use_target_weight =
    false, [WingLoss.forward] returns the mean over the batch of the
    per-sample sums over joints and coordinates of g(|prediction - target|),
    divided by K and multiplied by loss_weight, with g(delta) =
    omega ln(1 + delta/epsilon) if delta < omega and delta - C otherwise,
    C = omega (1 - ln(1 + omega/epsilon)).  This holds wherever C is defined
    (epsilon <> 0 and 1 + omega/epsilon > 0), in particular for positive
    omega and epsilon; for N, K >= 1 the result is the real number
    (sum of the per-sample sums / N) / K * loss_weight.  In the scenario
    N = 1, K = 1, output = [[[0,0]]], target = [[[1,0]]], omega = 10,
    epsilon = 2 the result is 10 ln 1.5, which lies between 4.0546 and
    4.0547. *)
Theorem wing_forward_is_formula :
  (forall self output target target_weight (N K : nat),
     WingLoss.epsilon self <> 0 ->
     0 < 1 + WingLoss.omega self / WingLoss.epsilon self ->
     WingLoss.use_target_weight self = false ->
     shape output = (N, K, 2%nat) ->
     shape target = (N, K, 2%nat) ->
     WingLoss.forward self output target target_weight =
     Returns (spec_wing_loss (WingLoss.omega self) (WingLoss.epsilon self)
                           (WingLoss.loss_weight self) output target)
     /\
     ((0 < N)%nat -> (0 < K)%nat ->
      spec_wing_loss (WingLoss.omega self) (WingLoss.epsilon self)
                   (WingLoss.loss_weight self) output target =
      Fin (sum_upto N
             (fun i =>
                list_sum
                  (sample_entries
                     (fun p g =>
                        spec_wing (WingLoss.omega self)
                          (WingLoss.epsilon self) (Rabs (p - g)))
                     output target i))
           / INR N / INR K * WingLoss.loss_weight self)))
  /\
  WingLoss.forward WingLoss.default
    scenario_output scenario_target scenario_weight =
  Returns (Fin (10 * ln 1.5))
  /\
  4.0546 < 10 * ln 1.5 < 4.0547.
Proof.
  split; [|split].
  - intros self output target target_weight N K He Hl Hu Ho Ht. split.
    + apply spec_wing_loss_same_shape; congruence.
    + intros HN HK. unfold spec_wing_loss.
      destruct (shape_eq output (mkTensor N K 2 (fun _ _ _ => 0)) Ho)
        as (H0 & H1 & H2). simpl in H0, H1, H2.
      rewrite list_mean_length, length_map, length_seq, list_sum_map_seq.
      rewrite H0, H1.
      destruct (Nat.eqb_spec N 0) as [E|_]; [lia|].
      simpl. destruct (Nat.eqb_spec K 0) as [E|_]; [lia|]. reflexivity.
  - exact scenario_wing_value.
  - pose proof ln_1_5_lower. pose proof ln_1_5_upper. lra.
Qed.

(** The statement at the default loss and the scenario tensors. *)
Lemma wing_forward_is_formula_witness :
  WingLoss.forward WingLoss.default
    scenario_output scenario_target scenario_weight =
  Returns (spec_wing_loss 10 2 1 scenario_output scenario_target)
  /\
  spec_wing_loss 10 2 1 scenario_output scenario_target =
  Fin (sum_upto 1
         (fun i =>
            list_sum
              (sample_entries
                 (fun p g => spec_wing 10 2 (Rabs (p - g)))
                 scenario_output scenario_target i))
       / INR 1 / INR 1 * 1).
Proof.
  assert (He : WingLoss.epsilon WingLoss.default <> 0) by (simpl; lra).
  assert (Hl : 0 < 1 + WingLoss.omega WingLoss.default /
                       WingLoss.epsilon WingLoss.default) by (simpl; lra).
  destruct (proj1 wing_forward_is_formula WingLoss.default
              scenario_output scenario_target scenario_weight 1%nat 1%nat
              He Hl eq_refl eq_refl eq_refl) as [H1 H2].
  split; [exact H1 | apply H2; lia].
Defined.

(** ** WingLoss: the two branches meet at omega *)

Lemma continuity_pt_glue f g x0 :
  continuity_pt f x0 -> continuity_pt g x0 -> f x0 = g x0 ->
  continuity_pt (fun x => if Rlt_dec x x0 then f x else g x) x0.
Proof.
  unfold continuity_pt, continue_in, limit1_in, limit_in. simpl.
  intros Hf Hg E eps Heps.
  destruct (Hf eps Heps) as (d1 & Hd1 & H1).
  destruct (Hg eps Heps) as (d2 & Hd2 & H2).
  exists (Rmin d1 d2). split; [apply Rmin_pos; assumption|].
  intros x [Hx Hlt].
  destruct (Rlt_dec x0 x0) as [F|_]; [lra|].
  destruct (Rlt_dec x x0) as [L|G].
  - rewrite <- E. apply H1. split; [exact Hx|].
    eapply Rlt_le_trans; [exact Hlt | apply Rmin_l].
  - apply H2. split; [exact Hx|].
    eapply Rlt_le_trans; [exact Hlt | apply Rmin_r].
Qed.

Lemma continuity_pt_ln y : 0 < y -> continuity_pt ln y.
Proof.
  intros Hy. apply derivable_continuous_pt.
  exists (/ y). apply derivable_pt_lim_ln. exact Hy.
Qed.

Lemma log_branch_continuous self delta :
  0 < 1 + delta / WingLoss.epsilon self ->
  continuity_pt (WingLoss.log_branch self) delta.
Proof.
  intros H. unfold WingLoss.log_branch.
  apply (continuity_pt_scal
           (fun d => ln (1 + d / WingLoss.epsilon self)) (WingLoss.omega self)).
  apply (continuity_pt_comp
           (fun d => 1 + d / WingLoss.epsilon self) ln).
  - apply derivable_continuous_pt.
    apply (derivable_pt_plus (fun _ => 1)
             (fun d => d / WingLoss.epsilon self)).
    + apply derivable_pt_const.
    + unfold Rdiv.
      apply (derivable_pt_mult id (fun _ => / WingLoss.epsilon self)).
      * apply derivable_pt_id.
      * apply derivable_pt_const.
  - apply continuity_pt_ln. exact H.
Qed.

Lemma linear_branch_continuous c delta :
  continuity_pt (WingLoss.linear_branch c) delta.
Proof.
  unfold WingLoss.linear_branch.
  apply (continuity_pt_minus id (fun _ => c)).
  - apply derivable_continuous_pt, derivable_pt_id.
  - apply continuity_pt_const. intros x y. reflexivity.
Qed.

(** C4: for positive omega and epsilon the constant C = omega (1 - ln(1 +
    omega/epsilon)) is computed, and at delta = omega the two branches of the
    wing function agree: omega ln(1 + omega/epsilon) = omega - C.  Hence the
    piecewise function handed to [torch.where] is continuous at omega. *)
Theorem wing_branches_agree_at_omega :
  forall self,
    0 < WingLoss.omega self -> 0 < WingLoss.epsilon self ->
    exists c,
      WingLoss.offset self = Returns c /\
      c = spec_wing_constant (WingLoss.omega self) (WingLoss.epsilon self) /\
      WingLoss.omega self *
        ln (1 + WingLoss.omega self / WingLoss.epsilon self) =
      WingLoss.omega self - c /\
      WingLoss.log_branch self (WingLoss.omega self) =
      WingLoss.linear_branch c (WingLoss.omega self) /\
      continuity_pt (WingLoss.wing self c) (WingLoss.omega self).
Proof.
  intros self Hw He. eexists. split; [apply offset_positive; assumption|].
  split; [reflexivity|].
  assert (E : WingLoss.omega self *
                ln (1 + WingLoss.omega self / WingLoss.epsilon self) =
              WingLoss.omega self -
              WingLoss.omega self *
                (1 - ln (1 + WingLoss.omega self / WingLoss.epsilon self)))
    by ring.
  split; [exact E|]. split; [exact E|].
  apply (continuity_pt_glue (WingLoss.log_branch self)
           (WingLoss.linear_branch _) (WingLoss.omega self)).
  - apply log_branch_continuous.
    assert (0 < WingLoss.omega self / WingLoss.epsilon self)
      by (apply Rdiv_lt_0_compat; assumption).
    lra.
  - apply linear_branch_continuous.
  - exact E.
Qed.

(** The statement at the default omega = 10 and epsilon = 2. *)
Lemma wing_branches_agree_at_omega_witness :
  exists c,
    WingLoss.offset WingLoss.default = Returns c /\
    c = spec_wing_constant 10 2 /\
    10 * ln (1 + 10 / 2) = 10 - c /\
    WingLoss.log_branch WingLoss.default 10 = WingLoss.linear_branch c 10 /\
    continuity_pt (WingLoss.wing WingLoss.default c) 10.
Proof.
  assert (Hw : 0 < WingLoss.omega WingLoss.default) by (simpl; lra).
  assert (He : 0 < WingLoss.epsilon WingLoss.default) by (simpl; lra).
  exact (wing_branches_agree_at_omega WingLoss.default Hw He).
Defined.

(** ** Zero losses *)

Lemma zero_loss_scaled K w :
  (0 < K)%nat -> mul_weight (div_count (Fin 0) K) w = Fin 0.
Proof.
  intros HK. unfold div_count.
  destruct (Nat.eqb_spec K 0) as [E|_]; [lia|].
  simpl. f_equal. unfold Rdiv. ring.
Qed.

Lemma sum_dims12_zero t i :
  (forall j d, (j < size1 t)%nat -> (d < size2 t)%nat -> at_ t i j d = 0) ->
  sum_dims12 t i = 0.
Proof.
  intros H. unfold sum_dims12. apply sum_upto_zero. intros j Hj.
  apply sum_upto_zero. intros d Hd. apply H; assumption.
Qed.

Lemma mean_all_zero t : nonempty t -> all_zero t -> mean_all t = Fin 0.
Proof.
  intros (H0 & H1 & H2) Hz. unfold mean_all, numel.
  destruct (Nat.eqb_spec (size0 t * size1 t * size2 t) 0) as [E|_]; [nia|].
  rewrite sum_upto_zero.
  - f_equal. unfold Rdiv. ring.
  - intros i Hi. apply sum_dims12_zero. intros j d Hj Hd. apply Hz; assumption.
Qed.

Lemma mean_dim0_zero t :
  (0 < size0 t)%nat -> all_zero t ->
  mean_dim0 (size0 t) (sum_dims12 t) = Fin 0.
Proof.
  intros H0 Hz. unfold mean_dim0.
  destruct (Nat.eqb_spec (size0 t) 0) as [E|_]; [lia|].
  rewrite sum_upto_zero.
  - f_equal. unfold Rdiv. ring.
  - intros i Hi. apply sum_dims12_zero. intros j d Hj Hd. apply Hz; assumption.
Qed.

(** If the two tensors handed to the criterion agree entry by entry, the
    smooth-L1 loss of a non-empty batch is zero. *)
Lemma smooth_zero_when_equal self output target target_weight (N K : nat) :
  shape output = (N, K, 2%nat) -> shape target = (N, K, 2%nat) ->
  shape target_weight = (N, K, 2%nat) ->
  (0 < N)%nat -> (0 < K)%nat ->
  (forall i j d, (i < N)%nat -> (j < K)%nat -> (d < 2)%nat ->
     at_ (weighted (SmoothL1Loss.use_target_weight self) output target_weight)
         i j d =
     at_ (weighted (SmoothL1Loss.use_target_weight self) target target_weight)
         i j d) ->
  SmoothL1Loss.forward self output target target_weight = Returns (Fin 0).
Proof.
  intros Ho Ht Hw HN HK Heq.
  rewrite smooth_forward_same_shape by congruence.
  destruct (shape_eq output (mkTensor N K 2 (fun _ _ _ => 0)) Ho)
    as (H0 & H1 & H2). simpl in H0, H1, H2.
  assert (S0 : forall uw x w, size0 (weighted uw x w) = size0 x)
    by (intros [] ? ?; reflexivity).
  assert (S1 : forall uw x w, size1 (weighted uw x w) = size1 x)
    by (intros [] ? ?; reflexivity).
  assert (S2 : forall uw x w, size2 (weighted uw x w) = size2 x)
    by (intros [] ? ?; reflexivity).
  rewrite mean_all_zero.
  - rewrite H1, zero_loss_scaled by exact HK. reflexivity.
  - unfold nonempty. simpl. rewrite S0, S1, S2. lia.
  - intros i j d. simpl. rewrite S0, S1, S2. intros Hi Hj Hd.
    rewrite Heq by lia. apply smooth_l1_same.
Qed.

(** The same for the wing loss with positive omega and epsilon. *)
Lemma wing_zero_when_equal self output target target_weight (N K : nat) :
  0 < WingLoss.omega self -> 0 < WingLoss.epsilon self ->
  shape output = (N, K, 2%nat) -> shape target = (N, K, 2%nat) ->
  shape target_weight = (N, K, 2%nat) ->
  (0 < N)%nat -> (0 < K)%nat ->
  (forall i j d, (i < N)%nat -> (j < K)%nat -> (d < 2)%nat ->
     at_ (weighted (WingLoss.use_target_weight self) output target_weight)
         i j d =
     at_ (weighted (WingLoss.use_target_weight self) target target_weight)
         i j d) ->
  WingLoss.forward self output target target_weight = Returns (Fin 0).
Proof.
  intros Hom Hep Ho Ht Hw HN HK Heq.
  rewrite wing_forward_same_shape by congruence.
  rewrite offset_positive by assumption. simpl.
  destruct (shape_eq output (mkTensor N K 2 (fun _ _ _ => 0)) Ho)
    as (H0 & H1 & H2). simpl in H0, H1, H2.
  destruct (shape_eq target (mkTensor N K 2 (fun _ _ _ => 0)) Ht)
    as (T0 & T1 & T2). simpl in T0, T1, T2.
  assert (S0 : forall uw x w, size0 (weighted uw x w) = size0 x)
    by (intros [] ? ?; reflexivity).
  assert (S1 : forall uw x w, size1 (weighted uw x w) = size1 x)
    by (intros [] ? ?; reflexivity).
  assert (S2 : forall uw x w, size2 (weighted uw x w) = size2 x)
    by (intros [] ? ?; reflexivity).
  match goal with
  | |- context [mean_dim0 _ (sum_dims12 ?t)] =>
      pose proof (mean_dim0_zero t) as Hm
  end.
  unfold all_zero in Hm. simpl in Hm.
  rewrite ?S0, ?S1, ?S2, ?T0, ?T1, ?T2 in Hm.
  rewrite H0, Hm.
  - rewrite H1, zero_loss_scaled by exact HK. reflexivity.
  - exact HN.
  - intros i j d Hi Hj Hd. rewrite Heq by assumption.
    rewrite Rminus_diag, Rabs_R0. apply wing_zero. exact Hom.
Qed.

(** ** A batch without samples *)

Lemma smooth_empty_batch self :
  SmoothL1Loss.forward self empty_batch empty_batch empty_batch = Returns NaN.
Proof.
  rewrite smooth_forward_same_shape by reflexivity.
  destruct (SmoothL1Loss.use_target_weight self); reflexivity.
Qed.

Lemma wing_empty_batch self :
  0 < WingLoss.omega self -> 0 < WingLoss.epsilon self ->
  WingLoss.forward self empty_batch empty_batch empty_batch = Returns NaN.
Proof.
  intros Hw He. rewrite wing_forward_same_shape by reflexivity.
  rewrite offset_positive by assumption. reflexivity.
Qed.

Lemma smooth_no_joints self :
  SmoothL1Loss.forward self no_joints no_joints no_joints = Returns NaN.
Proof.
  rewrite smooth_forward_same_shape by reflexivity.
  destruct (SmoothL1Loss.use_target_weight self); reflexivity.
Qed.

Lemma wing_no_joints self :
  0 < WingLoss.omega self -> 0 < WingLoss.epsilon self ->
  WingLoss.forward self no_joints no_joints no_joints = Returns NaN.
Proof.
  intros Hw He. rewrite wing_forward_same_shape by reflexivity.
  rewrite offset_positive by assumption.
  assert (E : forall t n, n = 1%nat -> size1 t = 0%nat ->
                          mean_dim0 n (sum_dims12 t) = Fin 0).
  { intros t n -> H1. unfold mean_dim0, sum_dims12. rewrite H1. simpl.
    f_equal. lra. }
  cbn [bind].
  match goal with
  | |- context [mean_dim0 ?n (sum_dims12 ?t)] =>
      rewrite (E t n eq_refl);
        [|destruct (WingLoss.use_target_weight self); reflexivity]
  end.
  simpl. destruct (Rlt_dec 0 0); [lra | reflexivity].
Qed.

Lemma default_omega_positive : 0 < WingLoss.omega WingLoss.default.
Proof. simpl. lra. Qed.

Lemma default_epsilon_positive : 0 < WingLoss.epsilon WingLoss.default.
Proof. simpl. lra. Qed.

(** ** Zero error and zero weight *)

(** C5, as stated, fails: on a batch without samples (shape (0, 1, 2)) and
    on a sample without joints (shape (1, 0, 2)) prediction and target are
    equal entry by entry, yet neither loss returns 0: the mean over no
    entries and 0 / 0 are NaN. *)
Lemma equal_empty_inputs_do_not_give_zero :
  (tensor_eq empty_batch empty_batch /\
   SmoothL1Loss.forward SmoothL1Loss.default
     empty_batch empty_batch empty_batch <> Returns (Fin 0) /\
   WingLoss.forward WingLoss.default
     empty_batch empty_batch empty_batch <> Returns (Fin 0)) /\
  (tensor_eq no_joints no_joints /\
   SmoothL1Loss.forward SmoothL1Loss.default
     no_joints no_joints no_joints <> Returns (Fin 0) /\
   WingLoss.forward WingLoss.default
     no_joints no_joints no_joints <> Returns (Fin 0)).
Proof.
  rewrite smooth_empty_batch, smooth_no_joints.
  rewrite (wing_empty_batch _ default_omega_positive
             default_epsilon_positive).
  rewrite (wing_no_joints _ default_omega_positive
             default_epsilon_positive).
  repeat split; try apply tensor_eq_refl; discriminate.
Qed.

(** C5, amended: for inputs of shape (N, K, 2) with N >= 1 and K >= 1 whose
    prediction equals the target entry by entry, [SmoothL1Loss.forward]
    returns 0, and so does [WingLoss.forward] for positive omega and
    epsilon, whatever use_target_weight and loss_weight are. *)
Theorem zero_error_gives_zero_loss :
  forall output target target_weight (N K : nat),
    shape output = (N, K, 2%nat) ->
    shape target_weight = (N, K, 2%nat) ->
    (0 < N)%nat -> (0 < K)%nat ->
    tensor_eq output target ->
    (forall self,
       SmoothL1Loss.forward self output target target_weight =
       Returns (Fin 0)) /\
    (forall self,
       0 < WingLoss.omega self -> 0 < WingLoss.epsilon self ->
       WingLoss.forward self output target target_weight = Returns (Fin 0)).
Proof.
  intros output target target_weight N K Ho Hw HN HK [Hs Heq].
  destruct (shape_eq output (mkTensor N K 2 (fun _ _ _ => 0)) Ho)
    as (H0 & H1 & H2). simpl in H0, H1, H2.
  assert (Ht : shape target = (N, K, 2%nat)) by congruence.
  split.
  - intros self. apply (smooth_zero_when_equal self _ _ _ N K); try assumption.
    intros i j d Hi Hj Hd.
    destruct (SmoothL1Loss.use_target_weight self); simpl;
      rewrite Heq by lia; reflexivity.
  - intros self Hom Hep.
    apply (wing_zero_when_equal self _ _ _ N K); try assumption.
    intros i j d Hi Hj Hd.
    destruct (WingLoss.use_target_weight self); simpl;
      rewrite Heq by lia; reflexivity.
Qed.

(** The statement at the default losses, with the scenario target as both
    prediction and target. *)
Lemma zero_error_gives_zero_loss_witness :
  SmoothL1Loss.forward SmoothL1Loss.default
    scenario_target scenario_target scenario_weight = Returns (Fin 0) /\
  WingLoss.forward WingLoss.default
    scenario_target scenario_target scenario_weight = Returns (Fin 0).
Proof.
  destruct (zero_error_gives_zero_loss
              scenario_target scenario_target scenario_weight 1 1
              eq_refl eq_refl (le_n 1) (le_n 1)
              (conj eq_refl (fun i j d _ _ _ => eq_refl))) as [Hs Hg].
  split.
  - apply Hs.
  - apply Hg; simpl; lra.
Defined.

(** C6, as stated, fails: with use_target_weight = true and an all-zero
    weight, neither loss returns 0 on a batch without samples (shape
    (0, 1, 2)) or on a sample without joints (shape (1, 0, 2)); and
    [WingLoss.forward] with epsilon = 0 raises ZeroDivisionError on the
    scenario tensors. *)
Lemma zero_weight_does_not_always_give_zero :
  (all_zero empty_batch /\
   SmoothL1Loss.forward (SmoothL1Loss.init true 1)
     empty_batch empty_batch empty_batch <> Returns (Fin 0) /\
   WingLoss.forward (WingLoss.init 10 2 true 1)
     empty_batch empty_batch empty_batch <> Returns (Fin 0)) /\
  (all_zero no_joints /\
   SmoothL1Loss.forward (SmoothL1Loss.init true 1)
     no_joints no_joints no_joints <> Returns (Fin 0) /\
   WingLoss.forward (WingLoss.init 10 2 true 1)
     no_joints no_joints no_joints <> Returns (Fin 0)) /\
  (all_zero (full 1 1 2 0) /\
   WingLoss.forward (WingLoss.init 10 0 true 1)
     scenario_output scenario_target (full 1 1 2 0) =
   Raises ZeroDivisionError).
Proof.
  rewrite smooth_empty_batch, smooth_no_joints.
  rewrite wing_empty_batch by (simpl; lra).
  rewrite wing_no_joints by (simpl; lra).
  repeat split; try (intros i j d _ _ _; reflexivity); try discriminate.
  rewrite wing_forward_same_shape by reflexivity.
  unfold WingLoss.offset, WingLoss.py_div. simpl.
  destruct (Req_dec_T 0 0) as [_|F]; [reflexivity | contradiction].
Qed.

(** C6, amended: for output, target and weight of shape (N, K, 2) with
    N >= 1 and K >= 1, when use_target_weight = true and the weight is all
    zeros, [SmoothL1Loss.forward] returns 0, and so does [WingLoss.forward]
    for positive omega and epsilon: both arguments of the criterion are
    multiplied by the weight first. *)
Theorem zero_weight_gives_zero_loss :
  forall output target target_weight (N K : nat),
    shape output = (N, K, 2%nat) ->
    shape target = (N, K, 2%nat) ->
    shape target_weight = (N, K, 2%nat) ->
    (0 < N)%nat -> (0 < K)%nat ->
    all_zero target_weight ->
    (forall self,
       SmoothL1Loss.use_target_weight self = true ->
       SmoothL1Loss.forward self output target target_weight =
       Returns (Fin 0)) /\
    (forall self,
       WingLoss.use_target_weight self = true ->
       0 < WingLoss.omega self -> 0 < WingLoss.epsilon self ->
       WingLoss.forward self output target target_weight = Returns (Fin 0)).
Proof.
  intros output target target_weight N K Ho Ht Hw HN HK Hz.
  destruct (shape_eq target_weight (mkTensor N K 2 (fun _ _ _ => 0)) Hw)
    as (H0 & H1 & H2). simpl in H0, H1, H2.
  split.
  - intros self Hu.
    apply (smooth_zero_when_equal self _ _ _ N K); try assumption.
    intros i j d Hi Hj Hd. rewrite Hu. simpl.
    rewrite Hz by lia. ring.
  - intros self Hu Hom Hep.
    apply (wing_zero_when_equal self _ _ _ N K); try assumption.
    intros i j d Hi Hj Hd. rewrite Hu. simpl.
    rewrite Hz by lia. ring.
Qed.

(** The statement at the scenario tensors with an all-zero weight. *)
Lemma zero_weight_gives_zero_loss_witness :
  SmoothL1Loss.forward (SmoothL1Loss.init true 1)
    scenario_output scenario_target (full 1 1 2 0) = Returns (Fin 0) /\
  WingLoss.forward (WingLoss.init 10 2 true 1)
    scenario_output scenario_target (full 1 1 2 0) = Returns (Fin 0).
Proof.
  assert (Hz : all_zero (full 1 1 2 0)) by (intros i j d _ _ _; reflexivity).
  destruct (zero_weight_gives_zero_loss
              scenario_output scenario_target (full 1 1 2 0) 1 1
              eq_refl eq_refl eq_refl
              (le_n 1) (le_n 1) Hz) as [Hs Hg].
  split.
  - apply Hs. reflexivity.
  - apply Hg; [reflexivity | simpl; lra | simpl; lra].
Defined.

(** ** Scaling by loss_weight *)

Lemma mul_weight_double s w : mul_weight s (2 * w) = double (mul_weight s w).
Proof.
  destruct s; simpl.
  - f_equal. ring.
  - destruct (Rlt_dec 0 (2 * w)), (Rlt_dec 0 w); try lra; try reflexivity.
    destruct (Rlt_dec (2 * w) 0), (Rlt_dec w 0); try lra; reflexivity.
  - destruct (Rlt_dec 0 (2 * w)), (Rlt_dec 0 w); try lra; try reflexivity.
    destruct (Rlt_dec (2 * w) 0), (Rlt_dec w 0); try lra; reflexivity.
  - reflexivity.
Qed.

(** C7: for every input and configuration, constructing a loss with
    loss_weight = 2 w yields exactly twice the outcome obtained with
    loss_weight = w, for [SmoothL1Loss.forward] and for [WingLoss.forward]
    (an exception stays the same exception, NaN and the infinities stay what
    they are). *)
Theorem doubling_loss_weight_doubles_loss :
  forall output target target_weight (use_target_weight : bool) (w : R),
    SmoothL1Loss.forward (SmoothL1Loss.init use_target_weight (2 * w))
      output target target_weight =
    fmap double
      (SmoothL1Loss.forward (SmoothL1Loss.init use_target_weight w)
         output target target_weight)
    /\
    forall omega epsilon,
      WingLoss.forward (WingLoss.init omega epsilon use_target_weight (2 * w))
        output target target_weight =
      fmap double
        (WingLoss.forward (WingLoss.init omega epsilon use_target_weight w)
           output target target_weight).
Proof.
  intros output target target_weight uw w. split.
  - unfold SmoothL1Loss.forward. simpl.
    destruct (if uw then _ else _) as [s|e]; simpl; [|reflexivity].
    rewrite mul_weight_double. reflexivity.
  - intros omega epsilon. unfold WingLoss.forward. simpl.
    assert (E : forall p g,
               WingLoss.criterion
                 (WingLoss.init omega epsilon uw (2 * w)) p g =
               WingLoss.criterion (WingLoss.init omega epsilon uw w) p g)
      by reflexivity.
    destruct uw.
    + destruct (mul output target_weight); [|reflexivity]. simpl.
      destruct (mul target target_weight); [|reflexivity]. simpl.
      rewrite E. destruct (WingLoss.criterion _ _ _); [|reflexivity]. simpl.
      rewrite mul_weight_double. reflexivity.
    + rewrite E. destruct (WingLoss.criterion _ _ _); [|reflexivity]. simpl.
      rewrite mul_weight_double. reflexivity.
Qed.

(** ** The target weight when it is switched off *)

(** C9: with use_target_weight = false the outcome of both forward methods
    does not depend on the target_weight argument. *)
Theorem unused_target_weight_is_ignored :
  forall output target weight1 weight2,
    (forall self,
       SmoothL1Loss.use_target_weight self = false ->
       SmoothL1Loss.forward self output target weight1 =
       SmoothL1Loss.forward self output target weight2) /\
    (forall self,
       WingLoss.use_target_weight self = false ->
       WingLoss.forward self output target weight1 =
       WingLoss.forward self output target weight2).
Proof.
  intros output target weight1 weight2. split; intros self Hu.
  - unfold SmoothL1Loss.forward. rewrite Hu. reflexivity.
  - unfold WingLoss.forward. rewrite Hu. reflexivity.
Qed.

(** The statement at the scenario tensors, with two weights of different
    shapes. *)
Lemma unused_target_weight_is_ignored_witness :
  SmoothL1Loss.forward SmoothL1Loss.default
    scenario_output scenario_target scenario_weight =
  SmoothL1Loss.forward SmoothL1Loss.default
    scenario_output scenario_target empty_batch /\
  WingLoss.forward WingLoss.default
    scenario_output scenario_target scenario_weight =
  WingLoss.forward WingLoss.default
    scenario_output scenario_target empty_batch.
Proof.
  destruct (unused_target_weight_is_ignored
              scenario_output scenario_target scenario_weight empty_batch)
    as [Hs Hg].
  split; [apply Hs | apply Hg]; reflexivity.
Defined.

(** ** Batch size *)

Lemma sum_dims12_repeat a b i :
  size1 a = size1 b -> size2 a = size2 b ->
  (forall j d, at_ a i j d = at_ b O j d) ->
  sum_dims12 a i = sum_dims12 b O.
Proof.
  intros H1 H2 H. unfold sum_dims12. rewrite H1, H2.
  apply sum_upto_ext. intros j _. apply sum_upto_ext. intros d _. apply H.
Qed.

Lemma sum_upto_repeat a b :
  size1 a = size1 b -> size2 a = size2 b ->
  (forall i j d, at_ a i j d = at_ b O j d) ->
  sum_upto (size0 a) (sum_dims12 a) = INR (size0 a) * sum_dims12 b O.
Proof.
  intros H1 H2 H. rewrite <- sum_upto_const. apply sum_upto_ext.
  intros i _. apply sum_dims12_repeat; auto.
Qed.

(** The mean over all entries does not see how often a sample is repeated. *)
Lemma mean_all_repeat a b :
  (1 <= size0 a)%nat -> size0 b = 1%nat ->
  size1 a = size1 b -> size2 a = size2 b ->
  (forall i j d, at_ a i j d = at_ b O j d) ->
  mean_all a = mean_all b.
Proof.
  intros HN H0 H1 H2 H. unfold mean_all, numel.
  rewrite (sum_upto_repeat a b H1 H2 H). rewrite H0, H1, H2. simpl sum_upto.
  destruct (Nat.eqb_spec (size0 a * size1 b * size2 b) 0) as [E|E];
    destruct (Nat.eqb_spec (1 * size1 b * size2 b) 0) as [E'|E'];
    try reflexivity; try nia.
  f_equal. rewrite <- Nat.mul_assoc, (mult_INR (size0 a)).
  replace (1 * size1 b * size2 b)%nat with (size1 b * size2 b)%nat by lia.
  assert (INR (size0 a) <> 0) by (apply not_0_INR; lia).
  assert (INR (size1 b * size2 b) <> 0) by (apply not_0_INR; lia).
  field. split; assumption.
Qed.

(** Neither does the mean over the batch of the per-sample sums. *)
Lemma mean_dim0_repeat a b :
  (1 <= size0 a)%nat -> size0 b = 1%nat ->
  size1 a = size1 b -> size2 a = size2 b ->
  (forall i j d, at_ a i j d = at_ b O j d) ->
  mean_dim0 (size0 a) (sum_dims12 a) = mean_dim0 (size0 b) (sum_dims12 b).
Proof.
  intros HN H0 H1 H2 H. unfold mean_dim0.
  rewrite (sum_upto_repeat a b H1 H2 H). rewrite H0. simpl sum_upto.
  destruct (Nat.eqb_spec (size0 a) 0) as [E|E]; [lia|]. simpl.
  f_equal. assert (INR (size0 a) <> 0) by (apply not_0_INR; lia).
  field. assumption.
Qed.

(** C8: for output, target and weight of shape (1, K, 2) and every N >= 1,
    repeating the sample N times along the batch dimension leaves the outcome
    of [SmoothL1Loss.forward] and of [WingLoss.forward] unchanged, for every
    configuration. *)
Theorem loss_is_invariant_under_batch_replication :
  forall output target target_weight (N K : nat),
    shape output = (1%nat, K, 2%nat) ->
    shape target = (1%nat, K, 2%nat) ->
    shape target_weight = (1%nat, K, 2%nat) ->
    (1 <= N)%nat ->
    (forall self,
       SmoothL1Loss.forward self (repeat_batch N output)
         (repeat_batch N target) (repeat_batch N target_weight) =
       SmoothL1Loss.forward self output target target_weight) /\
    (forall self,
       WingLoss.forward self (repeat_batch N output)
         (repeat_batch N target) (repeat_batch N target_weight) =
       WingLoss.forward self output target target_weight).
Proof.
  intros output target target_weight N K Ho Ht Hw HN.
  destruct (shape_eq output (mkTensor 1 K 2 (fun _ _ _ => 0)) Ho)
    as (O0 & O1 & O2). simpl in O0, O1, O2.
  destruct (shape_eq target (mkTensor 1 K 2 (fun _ _ _ => 0)) Ht)
    as (T0 & T1 & T2). simpl in T0, T1, T2.
  destruct (shape_eq target_weight (mkTensor 1 K 2 (fun _ _ _ => 0)) Hw)
    as (W0 & W1 & W2). simpl in W0, W1, W2.
  assert (Rs : forall x y, shape x = (1%nat, K, 2%nat) ->
                           shape y = (1%nat, K, 2%nat) ->
                           shape (repeat_batch N x) = shape (repeat_batch N y)).
  { intros x y Hx Hy.
    destruct (shape_eq x (mkTensor 1 K 2 (fun _ _ _ => 0)) Hx) as (_ & ? & ?).
    destruct (shape_eq y (mkTensor 1 K 2 (fun _ _ _ => 0)) Hy) as (_ & ? & ?).
    unfold shape. simpl in *. congruence. }
  split; intros self.
  - rewrite !smooth_forward_same_shape by (auto || congruence).
    do 2 f_equal. f_equal.
    apply mean_all_repeat;
      destruct (SmoothL1Loss.use_target_weight self); simpl;
      auto; congruence.
  - rewrite !wing_forward_same_shape by (auto || congruence).
    destruct (WingLoss.offset self) as [c|e]; [|reflexivity]. simpl.
    do 2 f_equal. f_equal.
    match goal with
    | |- mean_dim0 _ (sum_dims12 ?a) = mean_dim0 _ (sum_dims12 ?b) =>
        pose proof (mean_dim0_repeat a b) as Hm
    end.
    simpl in Hm.
    destruct (WingLoss.use_target_weight self); simpl in *;
      rewrite T0 in Hm; rewrite O0; apply Hm; auto; congruence.
Qed.

(** The statement at the scenario tensors repeated three times. *)
Lemma loss_is_invariant_under_batch_replication_witness :
  SmoothL1Loss.forward SmoothL1Loss.default (repeat_batch 3 scenario_output)
    (repeat_batch 3 scenario_target) (repeat_batch 3 scenario_weight) =
  SmoothL1Loss.forward SmoothL1Loss.default
    scenario_output scenario_target scenario_weight /\
  WingLoss.forward WingLoss.default (repeat_batch 3 scenario_output)
    (repeat_batch 3 scenario_target) (repeat_batch 3 scenario_weight) =
  WingLoss.forward WingLoss.default
    scenario_output scenario_target scenario_weight.
Proof.
  assert (H : (1 <= 3)%nat) by lia.
  destruct (loss_is_invariant_under_batch_replication
              scenario_output scenario_target scenario_weight 3 1
              eq_refl eq_refl eq_refl H) as [Hs Hg].
  split; [apply Hs | apply Hg].
Defined.

(** ** Sign of the loss *)

Lemma sum_dims12_nonneg t i :
  (forall j d, (j < size1 t)%nat -> (d < size2 t)%nat -> 0 <= at_ t i j d) ->
  0 <= sum_dims12 t i.
Proof.
  intros H. unfold sum_dims12. apply sum_upto_nonneg. intros j Hj.
  apply sum_upto_nonneg. intros d Hd. apply H; assumption.
Qed.

Lemma mean_all_nonneg t :
  nonempty t ->
  (forall i j d, 0 <= at_ t i j d) ->
  exists r, mean_all t = Fin r /\ 0 <= r.
Proof.
  intros (H0 & H1 & H2) H. unfold mean_all, numel.
  destruct (Nat.eqb_spec (size0 t * size1 t * size2 t) 0) as [E|E]; [nia|].
  eexists. split; [reflexivity|].
  apply Rmult_le_pos.
  - apply sum_upto_nonneg. intros i _. apply sum_dims12_nonneg. auto.
  - left. apply Rinv_0_lt_compat, lt_0_INR. lia.
Qed.

Lemma mean_dim0_nonneg t :
  (0 < size0 t)%nat ->
  (forall i j d, 0 <= at_ t i j d) ->
  exists r, mean_dim0 (size0 t) (sum_dims12 t) = Fin r /\ 0 <= r.
Proof.
  intros H0 H. unfold mean_dim0.
  destruct (Nat.eqb_spec (size0 t) 0) as [E|E]; [lia|].
  eexists. split; [reflexivity|].
  apply Rmult_le_pos.
  - apply sum_upto_nonneg. intros i _. apply sum_dims12_nonneg. auto.
  - left. apply Rinv_0_lt_compat, lt_0_INR. lia.
Qed.

Lemma scaled_nonneg r K w :
  (0 < K)%nat -> 0 <= r -> 0 <= w ->
  exists r', mul_weight (div_count (Fin r) K) w = Fin r' /\ 0 <= r'.
Proof.
  intros HK Hr Hw. unfold div_count.
  destruct (Nat.eqb_spec K 0) as [E|_]; [lia|].
  eexists. split; [reflexivity|].
  apply Rmult_le_pos; [|assumption].
  apply Rmult_le_pos; [assumption|].
  left. apply Rinv_0_lt_compat, lt_0_INR. lia.
Qed.

(** C10, as stated, fails: on a batch without samples (shape (0, 1, 2)) and
    on a sample without joints (shape (1, 0, 2)) both losses, with
    loss_weight = 1 and omega = 10, epsilon = 2, return NaN, which is not a
    nonnegative number. *)
Lemma loss_of_empty_input_is_not_nonnegative :
  SmoothL1Loss.forward SmoothL1Loss.default
    empty_batch empty_batch empty_batch = Returns NaN /\
  WingLoss.forward WingLoss.default
    empty_batch empty_batch empty_batch = Returns NaN /\
  SmoothL1Loss.forward SmoothL1Loss.default
    no_joints no_joints no_joints = Returns NaN /\
  WingLoss.forward WingLoss.default
    no_joints no_joints no_joints = Returns NaN /\
  ~ nonnegative NaN.
Proof.
  rewrite smooth_empty_batch, smooth_no_joints.
  rewrite (wing_empty_batch _ default_omega_positive
             default_epsilon_positive).
  rewrite (wing_no_joints _ default_omega_positive
             default_epsilon_positive).
  repeat split. intros H. exact H.
Qed.

(** C10, amended: for output, target and weight of shape (N, K, 2) with
    N >= 1 and K >= 1 and loss_weight >= 0, [SmoothL1Loss.forward] returns a
    nonnegative real number, and so does [WingLoss.forward] for positive
    omega and epsilon. *)
Theorem loss_is_nonnegative :
  forall output target target_weight (N K : nat),
    shape output = (N, K, 2%nat) ->
    shape target = (N, K, 2%nat) ->
    shape target_weight = (N, K, 2%nat) ->
    (0 < N)%nat -> (0 < K)%nat ->
    (forall self,
       0 <= SmoothL1Loss.loss_weight self ->
       exists r,
         SmoothL1Loss.forward self output target target_weight =
         Returns (Fin r) /\ nonnegative (Fin r)) /\
    (forall self,
       0 <= WingLoss.loss_weight self ->
       0 < WingLoss.omega self -> 0 < WingLoss.epsilon self ->
       exists r,
         WingLoss.forward self output target target_weight =
         Returns (Fin r) /\ nonnegative (Fin r)).
Proof.
  intros output target target_weight N K Ho Ht Hw HN HK.
  destruct (shape_eq output (mkTensor N K 2 (fun _ _ _ => 0)) Ho)
    as (O0 & O1 & O2). simpl in O0, O1, O2.
  destruct (shape_eq target (mkTensor N K 2 (fun _ _ _ => 0)) Ht)
    as (T0 & T1 & T2). simpl in T0, T1, T2.
  split.
  - intros self Hl.
    rewrite smooth_forward_same_shape by congruence.
    destruct (mean_all_nonneg
                (zip smooth_l1
                   (weighted (SmoothL1Loss.use_target_weight self)
                      output target_weight)
                   (weighted (SmoothL1Loss.use_target_weight self)
                      target target_weight))) as (m & Em & Hm).
    + unfold nonempty.
      destruct (SmoothL1Loss.use_target_weight self); simpl; lia.
    + intros i j d. apply smooth_l1_nonneg.
    + rewrite Em.
      destruct (scaled_nonneg m (size1 output)
                  (SmoothL1Loss.loss_weight self)) as (r & Er & Hr);
        [lia | assumption | assumption |].
      exists r. rewrite Er. split; [reflexivity | exact Hr].
  - intros self Hl Hom Hep.
    rewrite wing_forward_same_shape by congruence.
    rewrite offset_positive by assumption. simpl.
    match goal with
    | |- context [mean_dim0 _ (sum_dims12 ?t)] =>
        destruct (mean_dim0_nonneg t) as (m & Em & Hm)
    end.
    + destruct (WingLoss.use_target_weight self); simpl; lia.
    + intros i j d. simpl. apply wing_nonneg; try assumption.
      apply Rabs_pos.
    + assert (S0 : forall uw x w, size0 (weighted uw x w) = size0 x)
        by (intros [] ? ?; reflexivity).
      simpl in Em. rewrite S0, T0 in Em. rewrite O0, Em.
      destruct (scaled_nonneg m (size1 output)
                  (WingLoss.loss_weight self)) as (r & Er & Hr);
        [lia | assumption | assumption |].
      exists r. rewrite Er. split; [reflexivity | exact Hr].
Qed.

(** The statement at the default losses and the scenario tensors. *)
Lemma loss_is_nonnegative_witness :
  (exists r,
     SmoothL1Loss.forward SmoothL1Loss.default
       scenario_output scenario_target scenario_weight = Returns (Fin r) /\
     nonnegative (Fin r)) /\
  (exists r,
     WingLoss.forward WingLoss.default
       scenario_output scenario_target scenario_weight = Returns (Fin r) /\
     nonnegative (Fin r)).
Proof.
  destruct (loss_is_nonnegative
              scenario_output scenario_target scenario_weight 1 1
              eq_refl eq_refl eq_refl (le_n 1) (le_n 1)) as [Hs Hg].
  split.
  - apply Hs. simpl. lra.
  - apply Hg; simpl; lra.
Defined.

(** * Further properties of the two losses *)

(** ** Broadcasting *)

Lemma broadcast_size_sym a b : broadcast_size a b = broadcast_size b a.
Proof.
  unfold broadcast_size.
  destruct (Nat.eqb_spec a b) as [->|Hab].
  - rewrite Nat.eqb_refl. reflexivity.
  - destruct (Nat.eqb_spec b a) as [E|_]; [congruence|].
    destruct (Nat.eqb_spec a 1) as [->|Ha], (Nat.eqb_spec b 1) as [->|Hb];
      try reflexivity; congruence.
Qed.

Lemma broadcast_size_incompatible a b :
  incompatible a b -> broadcast_size a b = None.
Proof.
  intros (Hab & Ha & Hb). unfold broadcast_size.
  destruct (Nat.eqb_spec a b); [contradiction|].
  destruct (Nat.eqb_spec a 1); [contradiction|].
  destruct (Nat.eqb_spec b 1); [contradiction|]. reflexivity.
Qed.


(** A broadcast index stays inside the dimension it reads. *)
Lemma broadcast_index_inside a b n i :
  broadcast_size a b = Some n -> (i < n)%nat ->
  (expand_index a i < a)%nat /\ (expand_index b i < b)%nat.
Proof.
  unfold broadcast_size, expand_index. intros H Hi.
  destruct (Nat.eqb_spec a b) as [->|Hab].
  - inversion H; subst. destruct (Nat.eqb_spec n 1); lia.
  - destruct (Nat.eqb_spec a 1) as [->|Ha].
    + inversion H; subst. destruct (Nat.eqb_spec n 1); lia.
    + destruct (Nat.eqb_spec b 1) as [->|Hb]; [|discriminate].
      inversion H; subst. lia.
Qed.

(** An elementwise operation reads only entries inside the shapes of its
    arguments. *)
Lemma map2_proper f a a' b b' :
  tensor_eq a a' -> tensor_eq b b' ->
  same_outcome (map2 f a b) (map2 f a' b').
Proof.
  intros [Sa Ea] [Sb Eb].
  destruct (shape_eq _ _ Sa) as (A0 & A1 & A2).
  destruct (shape_eq _ _ Sb) as (B0 & B1 & B2).
  unfold map2. rewrite <- A0, <- A1, <- A2, <- B0, <- B1, <- B2.
  destruct (broadcast_size (size0 a) (size0 b)) as [n0|] eqn:E0;
    [|reflexivity].
  destruct (broadcast_size (size1 a) (size1 b)) as [n1|] eqn:E1;
    [|reflexivity].
  destruct (broadcast_size (size2 a) (size2 b)) as [n2|] eqn:E2;
    [|reflexivity].
  split; [reflexivity|]. simpl. intros i j d Hi Hj Hd.
  destruct (broadcast_index_inside _ _ _ _ E0 Hi).
  destruct (broadcast_index_inside _ _ _ _ E1 Hj).
  destruct (broadcast_index_inside _ _ _ _ E2 Hd).
  rewrite Ea, Eb by assumption. reflexivity.
Qed.

(** Swapping the arguments of an elementwise operation. *)
Lemma map2_swap f a b :
  same_outcome (map2 f a b) (map2 (fun x y => f y x) b a).
Proof.
  unfold map2.
  rewrite (broadcast_size_sym (size0 b)), (broadcast_size_sym (size1 b)),
    (broadcast_size_sym (size2 b)).
  destruct (broadcast_size (size0 a) (size0 b)); [|reflexivity].
  destruct (broadcast_size (size1 a) (size1 b)); [|reflexivity].
  destruct (broadcast_size (size2 a) (size2 b)); [|reflexivity].
  apply tensor_eq_refl.
Qed.

Lemma map2_ext f g a b :
  (forall x y, f x y = g x y) ->
  same_outcome (map2 f a b) (map2 g a b).
Proof.
  intros H. unfold map2.
  destruct (broadcast_size (size0 a) (size0 b)); [|reflexivity].
  destruct (broadcast_size (size1 a) (size1 b)); [|reflexivity].
  destruct (broadcast_size (size2 a) (size2 b)); [|reflexivity].
  split; [reflexivity|]. simpl. intros. apply H.
Qed.

Lemma same_outcome_trans r1 r2 r3 :
  same_outcome r1 r2 -> same_outcome r2 r3 -> same_outcome r1 r3.
Proof.
  destruct r1, r2, r3; simpl; try contradiction; try congruence.
  apply tensor_eq_trans.
Qed.

Lemma same_outcome_returns z r :
  same_outcome (Returns z) r -> exists z', r = Returns z' /\ tensor_eq z z'.
Proof. destruct r; simpl; [eauto | contradiction]. Qed.

Lemma same_outcome_raises e r : same_outcome (Raises e) r -> r = Raises e.
Proof. destruct r; simpl; [contradiction | congruence]. Qed.


Lemma map2_raises f a b e : map2 f a b = Raises e -> e = RuntimeError.
Proof.
  unfold map2.
  destruct (broadcast_size (size0 a) (size0 b)); [|congruence].
  destruct (broadcast_size (size1 a) (size1 b)); [|congruence].
  destruct (broadcast_size (size2 a) (size2 b)); [discriminate | congruence].
Qed.

(** ** The losses read only the entries inside the shapes *)

Lemma smooth_l1_loss_proper a a' b b' :
  tensor_eq a a' -> tensor_eq b b' ->
  smooth_l1_loss a b = smooth_l1_loss a' b'.
Proof.
  intros Ha Hb. unfold smooth_l1_loss.
  pose proof (map2_proper smooth_l1 a a' b b' Ha Hb) as H.
  destruct (map2 smooth_l1 a b) as [z|e].
  - destruct (same_outcome_returns _ _ H) as (z' & -> & Hz). simpl.
    rewrite (mean_all_proper z z' Hz). reflexivity.
  - rewrite (same_outcome_raises _ _ H). reflexivity.
Qed.

Lemma wing_losses_proper self z z' :
  tensor_eq z z' ->
  (c <- WingLoss.offset self ;;
   Returns (mean_dim0 (size0 z)
              (sum_dims12 (map1 (WingLoss.wing self c) (abs z))))) =
  (c <- WingLoss.offset self ;;
   Returns (mean_dim0 (size0 z')
              (sum_dims12 (map1 (WingLoss.wing self c) (abs z'))))).
Proof.
  intros Hz. destruct (WingLoss.offset self) as [c|e]; [|reflexivity]. simpl.
  pose proof (mean_dim0_sum_proper _ _
                (map1_proper (WingLoss.wing self c) _ _
                   (map1_proper Rabs _ _ Hz))) as H.
  simpl in H. unfold abs. rewrite H. reflexivity.
Qed.

Lemma wing_criterion_proper self a a' b b' :
  tensor_eq a a' -> tensor_eq b b' ->
  WingLoss.criterion self a b = WingLoss.criterion self a' b'.
Proof.
  intros Ha Hb. unfold WingLoss.criterion, sub.
  pose proof (map2_proper Rminus b b' a a' Hb Ha) as H.
  destruct (map2 Rminus b a) as [z|e].
  - destruct (same_outcome_returns _ _ H) as (z' & -> & Hz).
    apply (wing_losses_proper self z z' Hz).
  - rewrite (same_outcome_raises _ _ H). reflexivity.
Qed.

(** The two multiplications by the weight, followed by a criterion. *)
Lemma weighted_block_proper (k : Tensor -> Tensor -> result scalar)
    o o' t t' w w' :
  same_outcome (mul o w) (mul o' w') ->
  same_outcome (mul t w) (mul t' w') ->
  (forall x x' y y', tensor_eq x x' -> tensor_eq y y' -> k x y = k x' y') ->
  (x <- mul o w ;; y <- mul t w ;; k x y) =
  (x <- mul o' w' ;; y <- mul t' w' ;; k x y).
Proof.
  intros Ho Ht Hk.
  destruct (mul o w) as [x|e].
  - destruct (same_outcome_returns _ _ Ho) as (x' & -> & Hx). simpl.
    destruct (mul t w) as [y|e].
    + destruct (same_outcome_returns _ _ Ht) as (y' & -> & Hy). simpl.
      apply Hk; assumption.
    + rewrite (same_outcome_raises _ _ Ht). reflexivity.
  - rewrite (same_outcome_raises _ _ Ho). reflexivity.
Qed.

Lemma smooth_forward_normalise self output target target_weight :
  SmoothL1Loss.forward self output target target_weight =
  normalise (size1 output) (SmoothL1Loss.loss_weight self)
    (if SmoothL1Loss.use_target_weight self then
       o <- mul output target_weight ;;
       g <- mul target target_weight ;;
       smooth_l1_loss o g
     else smooth_l1_loss output target).
Proof. reflexivity. Qed.

Lemma wing_forward_normalise self output target target_weight :
  WingLoss.forward self output target target_weight =
  normalise (size1 output) (WingLoss.loss_weight self)
    (if WingLoss.use_target_weight self then
       o <- mul output target_weight ;;
       g <- mul target target_weight ;;
       WingLoss.criterion self o g
     else WingLoss.criterion self output target).
Proof. reflexivity. Qed.

Lemma tensor_eq_size1 a b : tensor_eq a b -> size1 a = size1 b.
Proof. intros [Hs _]. destruct (shape_eq _ _ Hs) as (_ & H & _). exact H. Qed.

(** Both [forward] methods give the same outcome on inputs that have the
    same shapes and the same entries inside them. *)
Lemma smooth_forward_proper self o o' t t' w w' :
  tensor_eq o o' -> tensor_eq t t' -> tensor_eq w w' ->
  SmoothL1Loss.forward self o t w = SmoothL1Loss.forward self o' t' w'.
Proof.
  intros Ho Ht Hw. rewrite !smooth_forward_normalise.
  rewrite (tensor_eq_size1 _ _ Ho). f_equal.
  destruct (SmoothL1Loss.use_target_weight self).
  - apply weighted_block_proper.
    + apply map2_proper; assumption.
    + apply map2_proper; assumption.
    + apply smooth_l1_loss_proper.
  - apply smooth_l1_loss_proper; assumption.
Qed.

Lemma wing_forward_proper self o o' t t' w w' :
  tensor_eq o o' -> tensor_eq t t' -> tensor_eq w w' ->
  WingLoss.forward self o t w = WingLoss.forward self o' t' w'.
Proof.
  intros Ho Ht Hw. rewrite !wing_forward_normalise.
  rewrite (tensor_eq_size1 _ _ Ho). f_equal.
  destruct (WingLoss.use_target_weight self).
  - apply weighted_block_proper.
    + apply map2_proper; assumption.
    + apply map2_proper; assumption.
    + apply wing_criterion_proper.
  - apply wing_criterion_proper; assumption.
Qed.

(** ** Prediction and target can be exchanged *)

Lemma smooth_l1_sym x y : smooth_l1 x y = smooth_l1 y x.
Proof. unfold smooth_l1. rewrite (Rabs_minus_sym x y). reflexivity. Qed.

Lemma smooth_l1_loss_sym a b : smooth_l1_loss a b = smooth_l1_loss b a.
Proof.
  unfold smooth_l1_loss.
  pose proof (same_outcome_trans _ _ _ (map2_swap smooth_l1 a b)
                (map2_ext _ smooth_l1 b a (fun x y => smooth_l1_sym y x)))
    as H.
  destruct (map2 smooth_l1 a b) as [z|e].
  - destruct (same_outcome_returns _ _ H) as (z' & -> & Hz). simpl.
    rewrite (mean_all_proper z z' Hz). reflexivity.
  - rewrite (same_outcome_raises _ _ H). reflexivity.
Qed.

Lemma abs_sub_swap a b :
  match sub a b, sub b a with
  | Returns z, Returns z' => tensor_eq (abs z) (abs z')
  | Raises e, Raises e' => e = e'
  | _, _ => False
  end.
Proof.
  unfold sub, map2.
  rewrite (broadcast_size_sym (size0 b)), (broadcast_size_sym (size1 b)),
    (broadcast_size_sym (size2 b)).
  destruct (broadcast_size (size0 a) (size0 b)); [|reflexivity].
  destruct (broadcast_size (size1 a) (size1 b)); [|reflexivity].
  destruct (broadcast_size (size2 a) (size2 b)); [|reflexivity].
  split; [reflexivity|]. simpl. intros. apply Rabs_minus_sym.
Qed.

Lemma wing_criterion_sym self a b :
  WingLoss.criterion self a b = WingLoss.criterion self b a.
Proof.
  unfold WingLoss.criterion. pose proof (abs_sub_swap b a) as H.
  destruct (sub b a) as [z|e], (sub a b) as [z'|e']; try contradiction.
  - simpl. destruct (WingLoss.offset self) as [c|e]; [|reflexivity]. simpl.
    pose proof (mean_dim0_sum_proper _ _
                  (map1_proper (WingLoss.wing self c) _ _ H)) as Hm.
    simpl in Hm. rewrite Hm. reflexivity.
  - simpl. congruence.
Qed.

Lemma weighted_block_swap (k : Tensor -> Tensor -> result scalar) o t w :
  (forall x y, k x y = k y x) ->
  (x <- mul o w ;; y <- mul t w ;; k x y) =
  (x <- mul t w ;; y <- mul o w ;; k x y).
Proof.
  intros Hk.
  destruct (mul o w) as [x|e] eqn:Eo, (mul t w) as [y|e'] eqn:Et; simpl.
  - apply Hk.
  - reflexivity.
  - reflexivity.
  - rewrite (map2_raises _ _ _ _ Eo), (map2_raises _ _ _ _ Et). reflexivity.
Qed.

(** X3: both losses are symmetric in prediction and target: exchanging
    [output] and [target] leaves the outcome unchanged, for every
    configuration and every weight, as long as both have the same number of
    joints (which [forward] reads off [output]). *)
Theorem loss_is_symmetric :
  forall output target target_weight,
    size1 output = size1 target ->
    (forall self,
       SmoothL1Loss.forward self output target target_weight =
       SmoothL1Loss.forward self target output target_weight) /\
    (forall self,
       WingLoss.forward self output target target_weight =
       WingLoss.forward self target output target_weight).
Proof.
  intros output target target_weight HK. split; intros self.
  - rewrite !smooth_forward_normalise, HK. f_equal.
    destruct (SmoothL1Loss.use_target_weight self).
    + apply weighted_block_swap. apply smooth_l1_loss_sym.
    + apply smooth_l1_loss_sym.
  - rewrite !wing_forward_normalise, HK. f_equal.
    destruct (WingLoss.use_target_weight self).
    + apply weighted_block_swap. apply wing_criterion_sym.
    + apply wing_criterion_sym.
Qed.

(** The statement at the scenario tensors. *)
Lemma loss_is_symmetric_witness :
  SmoothL1Loss.forward SmoothL1Loss.default
    scenario_output scenario_target scenario_weight =
  SmoothL1Loss.forward SmoothL1Loss.default
    scenario_target scenario_output scenario_weight /\
  WingLoss.forward WingLoss.default
    scenario_output scenario_target scenario_weight =
  WingLoss.forward WingLoss.default
    scenario_target scenario_output scenario_weight.
Proof.
  destruct (loss_is_symmetric scenario_output scenario_target scenario_weight
              eq_refl) as [Hs Hg].
  split; [apply Hs | apply Hg].
Defined.

(** ** Exceptions *)

Lemma broadcast_size_none a b :
  broadcast_size a b = None -> incompatible a b.
Proof.
  unfold broadcast_size, incompatible.
  destruct (Nat.eqb_spec a b); [discriminate|].
  destruct (Nat.eqb_spec a 1); [discriminate|].
  destruct (Nat.eqb_spec b 1); [discriminate|]. auto.
Qed.

Lemma map2_mismatch f a b : mismatch a b -> map2 f a b = Raises RuntimeError.
Proof.
  unfold map2. intros [H|[H|H]];
    rewrite (broadcast_size_incompatible _ _ H).
  - reflexivity.
  - destruct (broadcast_size (size0 a) (size0 b)); reflexivity.
  - destruct (broadcast_size (size0 a) (size0 b));
      destruct (broadcast_size (size1 a) (size1 b)); reflexivity.
Qed.

Lemma map2_match f a b : ~ mismatch a b -> exists z, map2 f a b = Returns z.
Proof.
  unfold map2, mismatch. intros H.
  destruct (broadcast_size (size0 a) (size0 b)) eqn:E0;
    [|exfalso; auto using broadcast_size_none].
  destruct (broadcast_size (size1 a) (size1 b)) eqn:E1;
    [|exfalso; auto using broadcast_size_none].
  destruct (broadcast_size (size2 a) (size2 b)) eqn:E2;
    [|exfalso; auto using broadcast_size_none].
  eexists. reflexivity.
Qed.

(** X1: with use_target_weight = false, [SmoothL1Loss.forward] raises
    exactly when some dimension of output and target differs with neither
    size being 1; the exception is then RuntimeError, and otherwise a scalar
    is returned. *)
Theorem smooth_l1_raises_exactly_on_mismatch :
  forall self output target target_weight,
    SmoothL1Loss.use_target_weight self = false ->
    (mismatch output target ->
     SmoothL1Loss.forward self output target target_weight =
     Raises RuntimeError) /\
    (~ mismatch output target ->
     exists s,
       SmoothL1Loss.forward self output target target_weight = Returns s).
Proof.
  intros self output target target_weight Hu.
  rewrite smooth_forward_normalise, Hu. unfold smooth_l1_loss. split.
  - intros H. rewrite (map2_mismatch _ _ _ H). reflexivity.
  - intros H. destruct (map2_match smooth_l1 _ _ H) as (z & ->).
    eexists. reflexivity.
Qed.

(** The statement at a batch of two against a batch of three, and at the
    scenario tensors. *)
Lemma smooth_l1_raises_exactly_on_mismatch_witness :
  SmoothL1Loss.forward SmoothL1Loss.default
    (full 2 1 2 0) (full 3 1 2 0) scenario_weight = Raises RuntimeError /\
  exists s,
    SmoothL1Loss.forward SmoothL1Loss.default
      scenario_output scenario_target scenario_weight = Returns s.
Proof.
  split.
  - apply (smooth_l1_raises_exactly_on_mismatch SmoothL1Loss.default
             (full 2 1 2 0) (full 3 1 2 0) scenario_weight eq_refl).
    left. repeat split; simpl; lia.
  - apply (smooth_l1_raises_exactly_on_mismatch SmoothL1Loss.default
             scenario_output scenario_target scenario_weight eq_refl).
    intros [(H & _)|[(H & _)|(H & _)]]; apply H; reflexivity.
Defined.

(** X2: the outcomes of [WingLoss.forward] with use_target_weight = false.
    Shapes that do not broadcast raise RuntimeError whatever omega and
    epsilon are; on shapes that broadcast, epsilon = 0 raises
    ZeroDivisionError, 1 + omega/epsilon <= 0 raises ValueError, and in every
    other case a scalar is returned. *)
Theorem wing_outcomes :
  forall self output target target_weight,
    WingLoss.use_target_weight self = false ->
    (mismatch target output ->
     WingLoss.forward self output target target_weight =
     Raises RuntimeError) /\
    (~ mismatch target output -> WingLoss.epsilon self = 0 ->
     WingLoss.forward self output target target_weight =
     Raises ZeroDivisionError) /\
    (~ mismatch target output -> WingLoss.epsilon self <> 0 ->
     1 + WingLoss.omega self / WingLoss.epsilon self <= 0 ->
     WingLoss.forward self output target target_weight =
     Raises ValueError) /\
    (~ mismatch target output -> WingLoss.epsilon self <> 0 ->
     0 < 1 + WingLoss.omega self / WingLoss.epsilon self ->
     exists s,
       WingLoss.forward self output target target_weight = Returns s).
Proof.
  intros self output target target_weight Hu.
  rewrite wing_forward_normalise, Hu. unfold WingLoss.criterion, sub.
  split; [|split; [|split]].
  - intros H. rewrite (map2_mismatch _ _ _ H). reflexivity.
  - intros H He. destruct (map2_match Rminus _ _ H) as (z & ->).
    unfold WingLoss.offset, WingLoss.py_div. simpl.
    destruct (Req_dec_T (WingLoss.epsilon self) 0); [reflexivity|].
    contradiction.
  - intros H He Hl. destruct (map2_match Rminus _ _ H) as (z & ->).
    unfold WingLoss.offset, WingLoss.py_div, WingLoss.math_log. simpl.
    destruct (Req_dec_T (WingLoss.epsilon self) 0); [contradiction|]. simpl.
    destruct (Rlt_dec 0 (1 + WingLoss.omega self / WingLoss.epsilon self));
      [lra | reflexivity].
  - intros H He Hl. destruct (map2_match Rminus _ _ H) as (z & ->).
    rewrite offset_defined by assumption. eexists. reflexivity.
Qed.

(** The four cases at concrete losses and tensors. *)
Lemma wing_outcomes_witness :
  WingLoss.forward (WingLoss.init 10 0 false 1)
    (full 2 1 2 0) (full 3 1 2 0) scenario_weight = Raises RuntimeError /\
  WingLoss.forward (WingLoss.init 10 0 false 1)
    scenario_output scenario_target scenario_weight =
  Raises ZeroDivisionError /\
  WingLoss.forward (WingLoss.init 10 (-2) false 1)
    scenario_output scenario_target scenario_weight = Raises ValueError /\
  exists s,
    WingLoss.forward WingLoss.default
      scenario_output scenario_target scenario_weight = Returns s.
Proof.
  assert (M : ~ mismatch scenario_target scenario_output).
  { intros [(H & _)|[(H & _)|(H & _)]]; apply H; reflexivity. }
  split; [|split; [|split]].
  - apply (wing_outcomes (WingLoss.init 10 0 false 1)
             (full 2 1 2 0) (full 3 1 2 0) scenario_weight eq_refl).
    left. repeat split; simpl; lia.
  - apply (wing_outcomes (WingLoss.init 10 0 false 1)
             scenario_output scenario_target scenario_weight eq_refl).
    + exact M.
    + reflexivity.
  - apply (wing_outcomes (WingLoss.init 10 (-2) false 1)
             scenario_output scenario_target scenario_weight eq_refl).
    + exact M.
    + simpl. lra.
    + simpl. lra.
  - apply (wing_outcomes WingLoss.default
             scenario_output scenario_target scenario_weight eq_refl).
    + exact M.
    + simpl. lra.
    + simpl. lra.
Defined.

(** X4: with use_target_weight = true a weight that cannot be broadcast
    against the output, or against the target, makes both losses raise
    RuntimeError. *)
Theorem weight_mismatch_raises :
  forall output target target_weight,
    mismatch output target_weight \/ mismatch target target_weight ->
    (forall self,
       SmoothL1Loss.use_target_weight self = true ->
       SmoothL1Loss.forward self output target target_weight =
       Raises RuntimeError) /\
    (forall self,
       WingLoss.use_target_weight self = true ->
       WingLoss.forward self output target target_weight =
       Raises RuntimeError).
Proof.
  intros output target target_weight H.
  assert (B : forall k : Tensor -> Tensor -> result scalar,
             (o <- mul output target_weight ;;
              g <- mul target target_weight ;; k o g) = Raises RuntimeError).
  { intros k. unfold mul. destruct H as [H|H].
    - rewrite (map2_mismatch _ _ _ H). reflexivity.
    - rewrite (map2_mismatch _ target _ H).
      destruct (map2 Rmult output target_weight) as [o|e] eqn:E;
        [reflexivity|].
      rewrite (map2_raises _ _ _ _ E). reflexivity. }
  split; intros self Hu.
  - rewrite smooth_forward_normalise, Hu, B. reflexivity.
  - rewrite wing_forward_normalise, Hu, B. reflexivity.
Qed.

(** The statement at the scenario tensors with a weight for three samples. *)
Lemma weight_mismatch_raises_witness :
  SmoothL1Loss.forward (SmoothL1Loss.init true 1)
    (full 2 1 2 0) (full 2 1 2 0) (full 3 1 2 0) = Raises RuntimeError /\
  WingLoss.forward (WingLoss.init 10 2 true 1)
    (full 2 1 2 0) (full 2 1 2 0) (full 3 1 2 0) = Raises RuntimeError.
Proof.
  assert (M : mismatch (full 2 1 2 0) (full 3 1 2 0)).
  { left. repeat split; simpl; lia. }
  destruct (weight_mismatch_raises (full 2 1 2 0) (full 2 1 2 0)
              (full 3 1 2 0) (or_introl M)) as [Hs Hg].
  split; [apply Hs | apply Hg]; reflexivity.
Defined.

(** ** The loss is a function of the weighted error *)

Lemma smooth_l1_difference x y x' y' :
  x - y = x' - y' -> smooth_l1 x y = smooth_l1 x' y'.
Proof. intros H. unfold smooth_l1. rewrite H. reflexivity. Qed.

Lemma size0_weighted uw x w : size0 (weighted uw x w) = size0 x.
Proof. destruct uw; reflexivity. Qed.

Lemma size1_weighted uw x w : size1 (weighted uw x w) = size1 x.
Proof. destruct uw; reflexivity. Qed.

Lemma size2_weighted uw x w : size2 (weighted uw x w) = size2 x.
Proof. destruct uw; reflexivity. Qed.

Lemma smooth_same_difference self o1 t1 o2 t2 w :
  shape t1 = shape o1 -> shape o2 = shape o1 -> shape t2 = shape o1 ->
  shape w = shape o1 ->
  (forall i j d,
     (i < size0 o1)%nat -> (j < size1 o1)%nat -> (d < size2 o1)%nat ->
     at_ (weighted (SmoothL1Loss.use_target_weight self) o1 w) i j d -
     at_ (weighted (SmoothL1Loss.use_target_weight self) t1 w) i j d =
     at_ (weighted (SmoothL1Loss.use_target_weight self) o2 w) i j d -
     at_ (weighted (SmoothL1Loss.use_target_weight self) t2 w) i j d) ->
  SmoothL1Loss.forward self o1 t1 w = SmoothL1Loss.forward self o2 t2 w.
Proof.
  intros Ht1 Ho2 Ht2 Hw H.
  rewrite !smooth_forward_same_shape by congruence.
  destruct (shape_eq _ _ Ho2) as (E0 & E1 & E2).
  rewrite E1. do 2 f_equal. f_equal. apply mean_all_proper.
  split.
  - unfold shape. simpl.
    rewrite !size0_weighted, !size1_weighted, !size2_weighted. congruence.
  - simpl. rewrite !size0_weighted, !size1_weighted, !size2_weighted.
    intros i j d Hi Hj Hd. apply smooth_l1_difference.
    apply H; lia.
Qed.

Lemma wing_same_difference self o1 t1 o2 t2 w :
  shape t1 = shape o1 -> shape o2 = shape o1 -> shape t2 = shape o1 ->
  shape w = shape o1 ->
  (forall i j d,
     (i < size0 o1)%nat -> (j < size1 o1)%nat -> (d < size2 o1)%nat ->
     at_ (weighted (WingLoss.use_target_weight self) o1 w) i j d -
     at_ (weighted (WingLoss.use_target_weight self) t1 w) i j d =
     at_ (weighted (WingLoss.use_target_weight self) o2 w) i j d -
     at_ (weighted (WingLoss.use_target_weight self) t2 w) i j d) ->
  WingLoss.forward self o1 t1 w = WingLoss.forward self o2 t2 w.
Proof.
  intros Ht1 Ho2 Ht2 Hw H.
  rewrite !wing_forward_same_shape by congruence.
  destruct (shape_eq _ _ Ho2) as (E0 & E1 & E2).
  destruct (shape_eq _ _ Ht1) as (F0 & F1 & F2).
  destruct (shape_eq _ _ Ht2) as (G0 & G1 & G2).
  destruct (WingLoss.offset self) as [c|e]; [|reflexivity]. simpl.
  rewrite E0, E1. do 2 f_equal. f_equal.
  match goal with
  | |- mean_dim0 _ (sum_dims12 ?a) = mean_dim0 _ (sum_dims12 ?b) =>
      pose proof (mean_dim0_sum_proper a b) as Hm
  end.
  simpl in Hm. rewrite !size0_weighted, F0, G0 in Hm. apply Hm.
  split.
  - unfold shape. simpl.
    rewrite !size0_weighted, !size1_weighted, !size2_weighted. congruence.
  - simpl. rewrite !size0_weighted, !size1_weighted, !size2_weighted.
    intros i j d Hi Hj Hd. do 2 f_equal.
    assert (D := H i j d). rewrite <- F0, <- F1, <- F2 in D.
    specialize (D Hi Hj Hd). lra.
Qed.

(** X5: for output, target and weight of one shape, both losses depend on
    prediction and target only through the error output - target: two pairs
    with the same entrywise difference give the same outcome, whatever
    use_target_weight is (so adding one offset to prediction and target
    changes nothing). *)
Theorem loss_depends_only_on_error :
  forall output1 target1 output2 target2 target_weight,
    shape target1 = shape output1 ->
    shape output2 = shape output1 ->
    shape target2 = shape output1 ->
    shape target_weight = shape output1 ->
    (forall i j d,
       (i < size0 output1)%nat -> (j < size1 output1)%nat ->
       (d < size2 output1)%nat ->
       at_ output1 i j d - at_ target1 i j d =
       at_ output2 i j d - at_ target2 i j d) ->
    (forall self,
       SmoothL1Loss.forward self output1 target1 target_weight =
       SmoothL1Loss.forward self output2 target2 target_weight) /\
    (forall self,
       WingLoss.forward self output1 target1 target_weight =
       WingLoss.forward self output2 target2 target_weight).
Proof.
  intros o1 t1 o2 t2 w Ht1 Ho2 Ht2 Hw H. split; intros self.
  - apply smooth_same_difference; try assumption.
    intros i j d Hi Hj Hd. specialize (H i j d Hi Hj Hd).
    destruct (SmoothL1Loss.use_target_weight self); simpl; [nra | exact H].
  - apply wing_same_difference; try assumption.
    intros i j d Hi Hj Hd. specialize (H i j d Hi Hj Hd).
    destruct (WingLoss.use_target_weight self); simpl; [nra | exact H].
Qed.

(** The statement for the scenario and the scenario shifted by its weight
    tensor. *)
Lemma loss_depends_only_on_error_witness :
  SmoothL1Loss.forward SmoothL1Loss.default
    scenario_output scenario_target scenario_weight =
  SmoothL1Loss.forward SmoothL1Loss.default
    (add scenario_output scenario_weight)
    (add scenario_target scenario_weight) scenario_weight /\
  WingLoss.forward WingLoss.default
    scenario_output scenario_target scenario_weight =
  WingLoss.forward WingLoss.default
    (add scenario_output scenario_weight)
    (add scenario_target scenario_weight) scenario_weight.
Proof.
  destruct (loss_depends_only_on_error
              scenario_output scenario_target
              (add scenario_output scenario_weight)
              (add scenario_target scenario_weight) scenario_weight
              eq_refl eq_refl eq_refl eq_refl) as [Hs Hg].
  - intros i j d _ _ _. simpl. lra.
  - split; [apply Hs | apply Hg].
Defined.

(** X6: with use_target_weight = true and inputs of one shape, entries whose
    weight is zero do not influence either loss: two (output, target) pairs
    that agree wherever the weight is non-zero give the same outcome. *)
Theorem masked_entries_do_not_matter :
  forall output1 target1 output2 target2 target_weight,
    shape target1 = shape output1 ->
    shape output2 = shape output1 ->
    shape target2 = shape output1 ->
    shape target_weight = shape output1 ->
    (forall i j d,
       (i < size0 output1)%nat -> (j < size1 output1)%nat ->
       (d < size2 output1)%nat ->
       at_ target_weight i j d = 0 \/
       (at_ output1 i j d = at_ output2 i j d /\
        at_ target1 i j d = at_ target2 i j d)) ->
    (forall self,
       SmoothL1Loss.use_target_weight self = true ->
       SmoothL1Loss.forward self output1 target1 target_weight =
       SmoothL1Loss.forward self output2 target2 target_weight) /\
    (forall self,
       WingLoss.use_target_weight self = true ->
       WingLoss.forward self output1 target1 target_weight =
       WingLoss.forward self output2 target2 target_weight).
Proof.
  intros o1 t1 o2 t2 w Ht1 Ho2 Ht2 Hw H. split; intros self Hu.
  - apply smooth_same_difference; try assumption.
    intros i j d Hi Hj Hd. rewrite Hu. simpl.
    destruct (H i j d Hi Hj Hd) as [-> | [-> ->]]; ring.
  - apply wing_same_difference; try assumption.
    intros i j d Hi Hj Hd. rewrite Hu. simpl.
    destruct (H i j d Hi Hj Hd) as [-> | [-> ->]]; ring.
Qed.

(** The statement with the second coordinate masked: the outputs
    [[[0, 0]]] and [[[0, 7]]] give the same loss. *)
Lemma masked_entries_do_not_matter_witness :
  SmoothL1Loss.forward (SmoothL1Loss.init true 1)
    scenario_output scenario_target (of_list [[[1; 0]]]) =
  SmoothL1Loss.forward (SmoothL1Loss.init true 1)
    (of_list [[[0; 7]]]) scenario_target (of_list [[[1; 0]]]) /\
  WingLoss.forward (WingLoss.init 10 2 true 1)
    scenario_output scenario_target (of_list [[[1; 0]]]) =
  WingLoss.forward (WingLoss.init 10 2 true 1)
    (of_list [[[0; 7]]]) scenario_target (of_list [[[1; 0]]]).
Proof.
  destruct (masked_entries_do_not_matter
              scenario_output scenario_target
              (of_list [[[0; 7]]]) scenario_target (of_list [[[1; 0]]])
              eq_refl eq_refl eq_refl eq_refl) as [Hs Hg].
  - intros i j d Hi Hj Hd. simpl in Hi, Hj, Hd.
    destruct i as [|i]; [|lia]. destruct j as [|j]; [|lia].
    destruct d as [|[|d]]; [right; split; reflexivity | left; reflexivity
                           | lia].
  - split; [apply Hs | apply Hg]; reflexivity.
Defined.

(** ** Particular weights *)

(** X7: for output and target of one shape, a target weight of that shape
    whose entries are all 1 gives, with use_target_weight = true, the same
    outcome as use_target_weight = false. *)
Theorem unit_weight_is_no_weight :
  forall output target target_weight,
    shape target = shape output ->
    shape target_weight = shape output ->
    (forall i j d,
       (i < size0 output)%nat -> (j < size1 output)%nat ->
       (d < size2 output)%nat -> at_ target_weight i j d = 1) ->
    (forall loss_weight,
       SmoothL1Loss.forward (SmoothL1Loss.init true loss_weight)
         output target target_weight =
       SmoothL1Loss.forward (SmoothL1Loss.init false loss_weight)
         output target target_weight) /\
    (forall omega epsilon loss_weight,
       WingLoss.forward (WingLoss.init omega epsilon true loss_weight)
         output target target_weight =
       WingLoss.forward (WingLoss.init omega epsilon false loss_weight)
         output target target_weight).
Proof.
  intros output target w Ht Hw H1.
  destruct (shape_eq _ _ Ht) as (T0 & T1 & T2).
  split.
  - intros lw. rewrite !smooth_forward_same_shape by (simpl; congruence).
    simpl. do 2 f_equal. f_equal. apply mean_all_proper.
    split; [reflexivity|]. simpl. intros i j d Hi Hj Hd.
    rewrite H1 by assumption. rewrite !Rmult_1_r. reflexivity.
  - intros omega epsilon lw.
    rewrite !wing_forward_same_shape by (simpl; congruence).
    assert (O : WingLoss.offset (WingLoss.init omega epsilon true lw) =
                WingLoss.offset (WingLoss.init omega epsilon false lw))
      by reflexivity.
    rewrite O.
    destruct (WingLoss.offset (WingLoss.init omega epsilon false lw))
      as [c|e]; [|reflexivity].
    simpl. do 2 f_equal. f_equal.
    match goal with
    | |- mean_dim0 _ (sum_dims12 ?a) = mean_dim0 _ (sum_dims12 ?b) =>
        pose proof (mean_dim0_sum_proper a b) as Hm
    end.
    simpl in Hm. rewrite T0 in Hm. apply Hm.
    split; [reflexivity|]. simpl. rewrite T0, T1, T2.
    intros i j d Hi Hj Hd.
    rewrite H1 by assumption. rewrite !Rmult_1_r. reflexivity.
Qed.

(** The statement at the scenario, whose weight is [[[1, 1]]]. *)
Lemma unit_weight_is_no_weight_witness :
  SmoothL1Loss.forward (SmoothL1Loss.init true 1)
    scenario_output scenario_target scenario_weight =
  SmoothL1Loss.forward (SmoothL1Loss.init false 1)
    scenario_output scenario_target scenario_weight /\
  WingLoss.forward (WingLoss.init 10 2 true 1)
    scenario_output scenario_target scenario_weight =
  WingLoss.forward (WingLoss.init 10 2 false 1)
    scenario_output scenario_target scenario_weight.
Proof.
  destruct (unit_weight_is_no_weight
              scenario_output scenario_target scenario_weight
              eq_refl eq_refl) as [Hs Hg].
  - intros i j d Hi Hj Hd. simpl in Hi, Hj, Hd.
    destruct i as [|i]; [|lia]. destruct j as [|j]; [|lia].
    destruct d as [|[|d]]; [reflexivity | reflexivity | lia].
  - split; [apply Hs | apply Hg].
Defined.

Lemma broadcast_size_one_r n : broadcast_size n 1 = Some n.
Proof.
  unfold broadcast_size.
  destruct (Nat.eqb_spec n 1) as [->|H]; [reflexivity|].
  reflexivity.
Qed.

(** Broadcasting a tensor of shape (N, K, 1) over the last dimension is the
    same as writing its entries out. *)
Lemma map2_expand_last f a w (N K D : nat) :
  shape a = (N, K, D) -> shape w = (N, K, 1%nat) ->
  same_outcome (map2 f a w) (map2 f a (expand_last D w)).
Proof.
  intros Ha Hw.
  destruct (shape_eq a (mkTensor N K D (fun _ _ _ => 0)) Ha)
    as (A0 & A1 & A2). simpl in A0, A1, A2.
  destruct (shape_eq w (mkTensor N K 1 (fun _ _ _ => 0)) Hw)
    as (W0 & W1 & W2). simpl in W0, W1, W2.
  unfold map2. simpl. rewrite A0, A1, A2, W0, W1, W2.
  rewrite !broadcast_size_same, broadcast_size_one_r.
  split; [reflexivity|]. simpl. intros i j d Hi Hj Hd. reflexivity.
Qed.

(** X8: a per-joint weight of shape (N, K, 1) is broadcast over both
    coordinates: for output and target of shape (N, K, 2) and
    use_target_weight = true it gives the same outcome as the weight of
    shape (N, K, 2) that repeats each joint's weight for x and y. *)
Theorem per_joint_weight_is_broadcast :
  forall output target target_weight (N K : nat),
    shape output = (N, K, 2%nat) ->
    shape target = (N, K, 2%nat) ->
    shape target_weight = (N, K, 1%nat) ->
    (forall self,
       SmoothL1Loss.use_target_weight self = true ->
       SmoothL1Loss.forward self output target target_weight =
       SmoothL1Loss.forward self output target
         (expand_last 2 target_weight)) /\
    (forall self,
       WingLoss.use_target_weight self = true ->
       WingLoss.forward self output target target_weight =
       WingLoss.forward self output target (expand_last 2 target_weight)).
Proof.
  intros output target w N K Ho Ht Hw. split; intros self Hu.
  - rewrite !smooth_forward_normalise, Hu. f_equal.
    apply weighted_block_proper.
    + apply (map2_expand_last Rmult output w N K 2); assumption.
    + apply (map2_expand_last Rmult target w N K 2); assumption.
    + apply smooth_l1_loss_proper.
  - rewrite !wing_forward_normalise, Hu. f_equal.
    apply weighted_block_proper.
    + apply (map2_expand_last Rmult output w N K 2); assumption.
    + apply (map2_expand_last Rmult target w N K 2); assumption.
    + apply wing_criterion_proper.
Qed.

(** The statement at the scenario with the per-joint weight [[[1]]]. *)
Lemma per_joint_weight_is_broadcast_witness :
  SmoothL1Loss.forward (SmoothL1Loss.init true 1)
    scenario_output scenario_target (of_list [[[1]]]) =
  SmoothL1Loss.forward (SmoothL1Loss.init true 1)
    scenario_output scenario_target (expand_last 2 (of_list [[[1]]])) /\
  WingLoss.forward (WingLoss.init 10 2 true 1)
    scenario_output scenario_target (of_list [[[1]]]) =
  WingLoss.forward (WingLoss.init 10 2 true 1)
    scenario_output scenario_target (expand_last 2 (of_list [[[1]]])).
Proof.
  destruct (per_joint_weight_is_broadcast
              scenario_output scenario_target (of_list [[[1]]]) 1 1
              eq_refl eq_refl eq_refl) as [Hs Hg].
  split; [apply Hs | apply Hg]; reflexivity.
Defined.

(** ** Larger errors give larger losses *)

Lemma sum_upto_le n f g :
  (forall i, (i < n)%nat -> f i <= g i) -> sum_upto n f <= sum_upto n g.
Proof.
  induction n as [|n IH]; intros H; simpl; [lra|].
  assert (sum_upto n f <= sum_upto n g) by (apply IH; intros; apply H; lia).
  assert (f n <= g n) by (apply H; lia). lra.
Qed.

Lemma sum_dims12_le a b i :
  size1 a = size1 b -> size2 a = size2 b ->
  (forall j d, (j < size1 a)%nat -> (d < size2 a)%nat ->
               at_ a i j d <= at_ b i j d) ->
  sum_dims12 a i <= sum_dims12 b i.
Proof.
  intros H1 H2 H. unfold sum_dims12. rewrite <- H1, <- H2.
  apply sum_upto_le. intros j Hj. apply sum_upto_le. intros d Hd.
  apply H; assumption.
Qed.

Lemma smooth_l1_monotone x y x' y' :
  Rabs (x - y) <= Rabs (x' - y') -> smooth_l1 x y <= smooth_l1 x' y'.
Proof.
  intros H. unfold smooth_l1. simpl.
  pose proof (Rabs_pos (x - y)). pose proof (Rabs_pos (x' - y')).
  destruct (Rlt_dec (Rabs (x - y)) 1), (Rlt_dec (Rabs (x' - y')) 1); nra.
Qed.

Lemma ln_le_compat x y : 0 < x -> x <= y -> ln x <= ln y.
Proof.
  intros Hx [H|<-]; [|lra]. left. apply ln_increasing; assumption.
Qed.

Lemma wing_monotone self delta delta' :
  0 < WingLoss.omega self -> 0 < WingLoss.epsilon self ->
  0 <= delta -> delta <= delta' ->
  WingLoss.wing self
    (WingLoss.omega self *
     (1 - ln (1 + WingLoss.omega self / WingLoss.epsilon self))) delta <=
  WingLoss.wing self
    (WingLoss.omega self *
     (1 - ln (1 + WingLoss.omega self / WingLoss.epsilon self))) delta'.
Proof.
  intros Hw He H0 Hle.
  unfold WingLoss.wing, WingLoss.log_branch, WingLoss.linear_branch.
  assert (Hi : 0 < / WingLoss.epsilon self) by (apply Rinv_0_lt_compat; lra).
  assert (L : forall u v, 0 <= u -> u <= v ->
                ln (1 + u / WingLoss.epsilon self) <=
                ln (1 + v / WingLoss.epsilon self)).
  { intros u v Hu Huv. apply ln_le_compat; unfold Rdiv; nra. }
  destruct (Rlt_dec delta (WingLoss.omega self)) as [A|A],
           (Rlt_dec delta' (WingLoss.omega self)) as [B|B].
  - apply Rmult_le_compat_l; [lra|]. apply L; assumption.
  - pose proof (L delta (WingLoss.omega self) H0 (Rlt_le _ _ A)). nra.
  - lra.
  - lra.
Qed.

Lemma scaled_le x y K w :
  (0 < K)%nat -> 0 <= w -> x <= y ->
  exists r1 r2,
    Returns (mul_weight (div_count (Fin x) K) w) = Returns (Fin r1) /\
    Returns (mul_weight (div_count (Fin y) K) w) = Returns (Fin r2) /\
    r1 <= r2.
Proof.
  intros HK Hw Hxy. unfold div_count.
  destruct (Nat.eqb_spec K 0) as [E|_]; [lia|].
  do 2 eexists. split; [reflexivity|]. split; [reflexivity|].
  apply Rmult_le_compat_r; [assumption|].
  apply Rmult_le_compat_r; [|assumption].
  left. apply Rinv_0_lt_compat, lt_0_INR. lia.
Qed.

Lemma Rabs_weighted_difference x y w :
  Rabs (x * w - y * w) = Rabs (x - y) * Rabs w.
Proof. rewrite <- Rabs_mult. f_equal. ring. Qed.

(** X9: for inputs of one shape (N, K, 2) with N, K >= 1 and
    loss_weight >= 0, both losses are monotone in the size of the error: if
    |output1 - target| <= |output2 - target| at every entry, the loss of
    output1 is at most the loss of output2 (for WingLoss with positive omega
    and epsilon), whatever use_target_weight is. *)
Theorem loss_is_monotone_in_error :
  forall output1 output2 target target_weight (N K : nat),
    shape output1 = (N, K, 2%nat) ->
    shape output2 = (N, K, 2%nat) ->
    shape target = (N, K, 2%nat) ->
    shape target_weight = (N, K, 2%nat) ->
    (0 < N)%nat -> (0 < K)%nat ->
    (forall i j d, (i < N)%nat -> (j < K)%nat -> (d < 2)%nat ->
       Rabs (at_ output1 i j d - at_ target i j d) <=
       Rabs (at_ output2 i j d - at_ target i j d)) ->
    (forall self,
       0 <= SmoothL1Loss.loss_weight self ->
       exists r1 r2,
         SmoothL1Loss.forward self output1 target target_weight =
         Returns (Fin r1) /\
         SmoothL1Loss.forward self output2 target target_weight =
         Returns (Fin r2) /\
         r1 <= r2) /\
    (forall self,
       0 <= WingLoss.loss_weight self ->
       0 < WingLoss.omega self -> 0 < WingLoss.epsilon self ->
       exists r1 r2,
         WingLoss.forward self output1 target target_weight =
         Returns (Fin r1) /\
         WingLoss.forward self output2 target target_weight =
         Returns (Fin r2) /\
         r1 <= r2).
Proof.
  intros o1 o2 t w N K Ho1 Ho2 Ht Hw HN HK H.
  destruct (shape_eq o1 (mkTensor N K 2 (fun _ _ _ => 0)) Ho1)
    as (A0 & A1 & A2). simpl in A0, A1, A2.
  destruct (shape_eq o2 (mkTensor N K 2 (fun _ _ _ => 0)) Ho2)
    as (B0 & B1 & B2). simpl in B0, B1, B2.
  destruct (shape_eq t (mkTensor N K 2 (fun _ _ _ => 0)) Ht)
    as (T0 & T1 & T2). simpl in T0, T1, T2.
  split.
  - intros self Hl. rewrite !smooth_forward_same_shape by congruence.
    unfold mean_all, numel. simpl.
    rewrite !size0_weighted, !size1_weighted, !size2_weighted.
    rewrite A0, A1, A2, B0, B1, B2.
    destruct (Nat.eqb_spec (N * K * 2) 0) as [E|_]; [nia|].
    apply scaled_le; [assumption | assumption |].
    apply Rmult_le_compat_r.
    { left. apply Rinv_0_lt_compat, lt_0_INR. nia. }
    apply sum_upto_le. intros i Hi. apply sum_dims12_le.
    + simpl. rewrite !size1_weighted. congruence.
    + simpl. rewrite !size2_weighted. congruence.
    + simpl. rewrite !size1_weighted, !size2_weighted, A1, A2.
      intros j d Hj Hd.
      apply smooth_l1_monotone. specialize (H i j d Hi Hj Hd).
      destruct (SmoothL1Loss.use_target_weight self); simpl; [|exact H].
      rewrite !Rabs_weighted_difference.
      apply Rmult_le_compat_r; [apply Rabs_pos | exact H].
  - intros self Hl Hom Hep. rewrite !wing_forward_same_shape by congruence.
    rewrite offset_positive by assumption. simpl.
    unfold mean_dim0. rewrite A0, B0.
    destruct (Nat.eqb_spec N 0) as [E|_]; [lia|].
    rewrite A1, B1.
    apply scaled_le; [assumption | assumption |].
    apply Rmult_le_compat_r.
    { left. apply Rinv_0_lt_compat, lt_0_INR. lia. }
    apply sum_upto_le. intros i Hi. apply sum_dims12_le.
    + reflexivity.
    + reflexivity.
    + simpl. rewrite !size1_weighted, !size2_weighted, T1, T2.
      intros j d Hj Hd. apply wing_monotone; try assumption;
        [apply Rabs_pos|].
      specialize (H i j d Hi Hj Hd).
      rewrite (Rabs_minus_sym _ (at_ (weighted _ o1 w) i j d)).
      rewrite (Rabs_minus_sym _ (at_ (weighted _ o2 w) i j d)).
      destruct (WingLoss.use_target_weight self); simpl; [|exact H].
      rewrite !Rabs_weighted_difference.
      apply Rmult_le_compat_r; [apply Rabs_pos | exact H].
Qed.

(** The statement with the target itself as the better prediction. *)
Lemma loss_is_monotone_in_error_witness :
  (exists r1 r2,
     SmoothL1Loss.forward SmoothL1Loss.default
       scenario_target scenario_target scenario_weight = Returns (Fin r1) /\
     SmoothL1Loss.forward SmoothL1Loss.default
       scenario_output scenario_target scenario_weight = Returns (Fin r2) /\
     r1 <= r2) /\
  (exists r1 r2,
     WingLoss.forward WingLoss.default
       scenario_target scenario_target scenario_weight = Returns (Fin r1) /\
     WingLoss.forward WingLoss.default
       scenario_output scenario_target scenario_weight = Returns (Fin r2) /\
     r1 <= r2).
Proof.
  destruct (loss_is_monotone_in_error
              scenario_target scenario_output scenario_target
              scenario_weight 1 1 eq_refl eq_refl eq_refl eq_refl
              (le_n 1) (le_n 1)) as [Hs Hg].
  - intros i j d _ _ _. rewrite Rminus_diag, Rabs_R0. apply Rabs_pos.
  - split.
    + apply Hs. simpl. lra.
    + apply Hg; simpl; lra.
Defined.

(** ** The loss vanishes only on a perfect prediction *)

Lemma sum_upto_zero_inv n f :
  (forall i, (i < n)%nat -> 0 <= f i) -> sum_upto n f = 0 ->
  forall i, (i < n)%nat -> f i = 0.
Proof.
  induction n as [|n IH]; intros Hf Hs i Hi; [lia|].
  simpl in Hs.
  assert (0 <= sum_upto n f) by (apply sum_upto_nonneg; intros; apply Hf; lia).
  assert (0 <= f n) by (apply Hf; lia).
  destruct (Nat.eq_dec i n) as [->|Hne]; [lra|].
  apply IH; [intros; apply Hf; lia | lra | lia].
Qed.

Lemma total_zero_inv t :
  (forall i j d, 0 <= at_ t i j d) ->
  sum_upto (size0 t) (sum_dims12 t) = 0 ->
  forall i j d, (i < size0 t)%nat -> (j < size1 t)%nat ->
                (d < size2 t)%nat -> at_ t i j d = 0.
Proof.
  intros Hp Hs i j d Hi Hj Hd.
  assert (Si : sum_dims12 t i = 0).
  { apply (sum_upto_zero_inv (size0 t) (sum_dims12 t)); try assumption.
    intros i' _. apply sum_dims12_nonneg. auto. }
  unfold sum_dims12 in Si.
  assert (Sj : sum_upto (size2 t) (fun d' => at_ t i j d') = 0).
  { apply (sum_upto_zero_inv (size1 t)
             (fun j' => sum_upto (size2 t) (fun d' => at_ t i j' d')));
      try assumption.
    intros j' _. apply sum_upto_nonneg. auto. }
  apply (sum_upto_zero_inv (size2 t) (fun d' => at_ t i j d'));
    try assumption. auto.
Qed.

Lemma smooth_l1_zero_inv x y : smooth_l1 x y = 0 -> x = y.
Proof.
  unfold smooth_l1. simpl. intros H.
  pose proof (Rabs_pos (x - y)) as P.
  assert (Z : Rabs (x - y) = 0).
  { destruct (Rlt_dec (Rabs (x - y)) 1); nra. }
  destruct (Req_dec (x - y) 0) as [E|E]; [lra|].
  pose proof (Rabs_pos_lt _ E). lra.
Qed.

Lemma wing_zero_inv self delta :
  0 < WingLoss.omega self -> 0 < WingLoss.epsilon self -> 0 <= delta ->
  WingLoss.wing self
    (WingLoss.omega self *
     (1 - ln (1 + WingLoss.omega self / WingLoss.epsilon self))) delta = 0 ->
  delta = 0.
Proof.
  intros Hw He Hd.
  unfold WingLoss.wing, WingLoss.log_branch, WingLoss.linear_branch.
  assert (Hi : 0 < / WingLoss.epsilon self) by (apply Rinv_0_lt_compat; lra).
  assert (P : forall u, 0 < u -> 0 < ln (1 + u / WingLoss.epsilon self)).
  { intros u Hu. rewrite <- ln_1. apply ln_increasing; unfold Rdiv; nra. }
  destruct (Rlt_dec delta (WingLoss.omega self)) as [A|A]; intros H.
  - destruct Hd as [Hd|Hd]; [|auto].
    pose proof (Rmult_lt_0_compat _ _ Hw (P delta Hd)). lra.
  - pose proof (Rmult_lt_0_compat _ _ Hw (P (WingLoss.omega self) Hw)).
    apply Rnot_lt_le in A. lra.
Qed.

Lemma scaled_zero_inv x K w :
  (0 < K)%nat -> w <> 0 ->
  mul_weight (div_count (Fin x) K) w = Fin 0 -> x = 0.
Proof.
  intros HK Hw. unfold div_count.
  destruct (Nat.eqb_spec K 0) as [E|_]; [lia|]. simpl. intros H.
  injection H as E.
  assert (0 < / INR K) by (apply Rinv_0_lt_compat, lt_0_INR; lia).
  unfold Rdiv in E.
  destruct (Rmult_integral _ _ E) as [E'|E']; [|contradiction].
  destruct (Rmult_integral _ _ E') as [E''|E'']; [assumption | lra].
Qed.

(** X10: for output and target of one shape (N, K, 2) with N, K >= 1,
    use_target_weight = false and loss_weight <> 0, [SmoothL1Loss.forward]
    returns 0 exactly when the prediction equals the target entry by entry,
    and so does [WingLoss.forward] for positive omega and epsilon. *)
Theorem zero_loss_iff_perfect_prediction :
  forall output target target_weight (N K : nat),
    shape output = (N, K, 2%nat) ->
    shape target = (N, K, 2%nat) ->
    (0 < N)%nat -> (0 < K)%nat ->
    (forall self,
       SmoothL1Loss.use_target_weight self = false ->
       SmoothL1Loss.loss_weight self <> 0 ->
       (SmoothL1Loss.forward self output target target_weight =
        Returns (Fin 0) <-> tensor_eq output target)) /\
    (forall self,
       WingLoss.use_target_weight self = false ->
       WingLoss.loss_weight self <> 0 ->
       0 < WingLoss.omega self -> 0 < WingLoss.epsilon self ->
       (WingLoss.forward self output target target_weight =
        Returns (Fin 0) <-> tensor_eq output target)).
Proof.
  intros output target w N K Ho Ht HN HK.
  destruct (shape_eq output (mkTensor N K 2 (fun _ _ _ => 0)) Ho)
    as (A0 & A1 & A2). simpl in A0, A1, A2.
  destruct (shape_eq target (mkTensor N K 2 (fun _ _ _ => 0)) Ht)
    as (T0 & T1 & T2). simpl in T0, T1, T2.
  split.
  - intros self Hu Hl.
    rewrite smooth_forward_same_shape by congruence.
    rewrite Hu. unfold weighted, mean_all, numel. simpl.
    rewrite A0, A1, A2.
    destruct (Nat.eqb_spec (N * K * 2) 0) as [E|_]; [nia|].
    split.
    + intros H. injection H as E.
      apply scaled_zero_inv in E; try assumption.
      assert (Z : sum_upto N (sum_dims12 (zip smooth_l1 output target)) = 0).
      { assert (INR (N * K * 2) <> 0) by (apply not_0_INR; nia).
        assert (0 < / INR (N * K * 2))
          by (apply Rinv_0_lt_compat, lt_0_INR; nia).
        unfold Rdiv in E.
        destruct (Rmult_integral _ _ E); [assumption | lra]. }
      split; [congruence|]. intros i j d Hi Hj Hd.
      apply smooth_l1_zero_inv.
      apply (total_zero_inv (zip smooth_l1 output target)); simpl;
        try assumption.
      * intros. apply smooth_l1_nonneg.
      * rewrite A0. exact Z.
    + intros [_ Heq]. rewrite sum_upto_zero.
      * unfold Rdiv. rewrite Rmult_0_l.
        rewrite zero_loss_scaled by assumption. reflexivity.
      * intros i Hi. apply sum_dims12_zero. simpl. rewrite A1, A2.
        intros j d Hj Hd. rewrite Heq by lia. apply smooth_l1_same.
  - intros self Hu Hl Hom Hep.
    rewrite wing_forward_same_shape by congruence.
    rewrite offset_positive by assumption.
    rewrite Hu. unfold weighted, mean_dim0. simpl.
    rewrite A0, A1.
    destruct (Nat.eqb_spec N 0) as [E|_]; [lia|].
    split.
    + intros H. injection H as E.
      apply scaled_zero_inv in E; try assumption.
      match type of E with
      | sum_upto N (sum_dims12 ?z) / _ = 0 =>
          assert (Z : sum_upto (size0 z) (sum_dims12 z) = 0)
      end.
      { simpl. rewrite T0.
        assert (0 < / INR N) by (apply Rinv_0_lt_compat, lt_0_INR; lia).
        unfold Rdiv in E.
        destruct (Rmult_integral _ _ E); [assumption | lra]. }
      split; [congruence|]. intros i j d Hi Hj Hd.
      apply total_zero_inv with (i := i) (j := j) (d := d) in Z;
        simpl; try lia.
      * simpl in Z. apply wing_zero_inv in Z; try assumption;
          [|apply Rabs_pos].
        destruct (Req_dec (at_ target i j d - at_ output i j d) 0) as [D|D];
          [lra|].
        pose proof (Rabs_pos_lt _ D). lra.
      * intros. simpl. apply wing_nonneg; try assumption. apply Rabs_pos.
    + intros [_ Heq]. rewrite sum_upto_zero.
      * unfold Rdiv. rewrite Rmult_0_l.
        rewrite zero_loss_scaled by assumption. reflexivity.
      * intros i Hi. apply sum_dims12_zero. simpl. rewrite T1, T2.
        intros j d Hj Hd. rewrite Heq by lia.
        rewrite Rminus_diag, Rabs_R0. apply wing_zero. assumption.
Qed.

(** The statement at the default losses and the scenario tensors: the
    scenario's prediction differs from its target, so neither loss is 0. *)
Lemma zero_loss_iff_perfect_prediction_witness :
  (SmoothL1Loss.forward SmoothL1Loss.default
     scenario_output scenario_target scenario_weight = Returns (Fin 0) <->
   tensor_eq scenario_output scenario_target) /\
  (WingLoss.forward WingLoss.default
     scenario_output scenario_target scenario_weight = Returns (Fin 0) <->
   tensor_eq scenario_output scenario_target).
Proof.
  destruct (zero_loss_iff_perfect_prediction
              scenario_output scenario_target scenario_weight 1 1
              eq_refl eq_refl (le_n 1) (le_n 1)) as [Hs Hg].
  split.
  - apply Hs; [reflexivity | simpl; lra].
  - apply Hg; [reflexivity | simpl; lra | simpl; lra | simpl; lra].
Defined.

(** ** No infinities *)







(** ** Empty inputs *)

Lemma nan_scaled K w : mul_weight (div_count NaN K) w = NaN.
Proof. reflexivity. Qed.

Lemma zero_over_no_joints w : mul_weight (div_count (Fin 0) O) w = NaN.
Proof. simpl. destruct (Rlt_dec 0 0); [lra | reflexivity]. Qed.

(** X12: on inputs of one shape without entries the losses do not raise:
    [SmoothL1Loss.forward] returns NaN as soon as one dimension is 0;
    [WingLoss.forward] (positive omega and epsilon) returns NaN when there
    are no samples or no joints, but 0 when only the coordinate dimension is
    empty. *)
Theorem loss_of_empty_input :
  forall output target target_weight,
    shape target = shape output ->
    shape target_weight = shape output ->
    (forall self,
       numel output = O ->
       SmoothL1Loss.forward self output target target_weight = Returns NaN)
    /\
    (forall self,
       0 < WingLoss.omega self -> 0 < WingLoss.epsilon self ->
       size0 output = O \/ size1 output = O ->
       WingLoss.forward self output target target_weight = Returns NaN)
    /\
    (forall self,
       0 < WingLoss.omega self -> 0 < WingLoss.epsilon self ->
       (0 < size0 output)%nat -> (0 < size1 output)%nat ->
       size2 output = O ->
       WingLoss.forward self output target target_weight = Returns (Fin 0)).
Proof.
  intros output target w Ht Hw.
  destruct (shape_eq _ _ Ht) as (T0 & T1 & T2).
  split; [|split].
  - intros self Hn. rewrite smooth_forward_same_shape by congruence.
    unfold mean_all, numel in *. simpl.
    rewrite size0_weighted, size1_weighted, size2_weighted, Hn.
    reflexivity.
  - intros self Hom Hep Hz.
    rewrite wing_forward_same_shape by congruence.
    rewrite offset_positive by assumption. cbn [bind].
    destruct (Nat.eq_dec (size0 output) 0) as [E0|E0].
    + rewrite E0. reflexivity.
    + destruct Hz as [Hz|Hz]; [contradiction|].
      match goal with
      | |- context [mean_dim0 _ (sum_dims12 ?t)] =>
          pose proof (mean_dim0_zero t) as Hm
      end.
      unfold all_zero in Hm. simpl in Hm.
      rewrite size0_weighted, size1_weighted, T0, T1, Hz in Hm.
      rewrite Hm, Hz; [|lia|intros; lia].
      rewrite zero_over_no_joints. reflexivity.
  - intros self Hom Hep H0 H1 H2.
    rewrite wing_forward_same_shape by congruence.
    rewrite offset_positive by assumption. cbn [bind].
    match goal with
    | |- context [mean_dim0 _ (sum_dims12 ?t)] =>
        pose proof (mean_dim0_zero t) as Hm
    end.
    unfold all_zero in Hm. simpl in Hm.
    rewrite size0_weighted, size2_weighted, T0, T2, H2 in Hm.
    rewrite Hm; [|lia|intros; lia].
    rewrite zero_loss_scaled by assumption. reflexivity.
Qed.

(** The three cases at tensors of shape (0, 1, 2), (1, 0, 2) and
    (1, 1, 0). *)
Lemma loss_of_empty_input_witness :
  SmoothL1Loss.forward SmoothL1Loss.default
    empty_batch empty_batch empty_batch = Returns NaN /\
  WingLoss.forward WingLoss.default
    no_joints no_joints no_joints = Returns NaN /\
  WingLoss.forward WingLoss.default
    (full 1 1 0 0) (full 1 1 0 0) (full 1 1 0 0) = Returns (Fin 0).
Proof.
  split; [|split].
  - apply (loss_of_empty_input empty_batch empty_batch empty_batch
             eq_refl eq_refl).
    reflexivity.
  - apply (loss_of_empty_input no_joints no_joints no_joints
             eq_refl eq_refl).
    + simpl. lra.
    + simpl. lra.
    + right. reflexivity.
  - apply (loss_of_empty_input (full 1 1 0 0) (full 1 1 0 0) (full 1 1 0 0)
             eq_refl eq_refl).
    + simpl. lra.
    + simpl. lra.
    + simpl. lia.
    + simpl. lia.
    + reflexivity.
Defined.

(** ** The loss of a batch is the mean of the losses of its samples *)

Lemma sum_upto_scale n f c :
  sum_upto n (fun i => f i * c) = sum_upto n f * c.
Proof.
  induction n as [|n IH]; simpl; [ring|]. rewrite IH. ring.
Qed.

Lemma mean_of_scaled n f c :
  (0 < n)%nat ->
  sum_upto n (fun i => f i * c) / INR n = sum_upto n f / INR n * c.
Proof.
  intros Hn. rewrite sum_upto_scale.
  assert (INR n <> 0) by (apply not_0_INR; lia). field. assumption.
Qed.

(** The value of [SmoothL1Loss.forward] on a non-empty input of one
    shape. *)
Lemma smooth_forward_value self output target target_weight (N K D : nat) :
  shape output = (N, K, D) -> shape target = (N, K, D) ->
  shape target_weight = (N, K, D) ->
  (0 < N)%nat -> (0 < K)%nat -> (0 < D)%nat ->
  SmoothL1Loss.forward self output target target_weight =
  Returns
    (Fin (sum_upto N
            (sum_dims12
               (zip smooth_l1
                  (weighted (SmoothL1Loss.use_target_weight self)
                     output target_weight)
                  (weighted (SmoothL1Loss.use_target_weight self)
                     target target_weight)))
          / INR (N * K * D) / INR K * SmoothL1Loss.loss_weight self)).
Proof.
  intros Ho Ht Hw HN HK HD.
  destruct (shape_eq output (mkTensor N K D (fun _ _ _ => 0)) Ho)
    as (A0 & A1 & A2). simpl in A0, A1, A2.
  rewrite smooth_forward_same_shape by congruence.
  unfold mean_all, numel. simpl.
  rewrite size0_weighted, size1_weighted, size2_weighted, A0, A1, A2.
  destruct (Nat.eqb_spec (N * K * D) 0) as [E|_]; [nia|].
  unfold div_count. destruct (Nat.eqb_spec K 0) as [E|_]; [lia|].
  reflexivity.
Qed.

(** The value of [WingLoss.forward] on an input of one shape with at least
    one sample and one joint, for positive omega and epsilon. *)
Lemma wing_forward_value self output target target_weight (N K D : nat) :
  0 < WingLoss.omega self -> 0 < WingLoss.epsilon self ->
  shape output = (N, K, D) -> shape target = (N, K, D) ->
  shape target_weight = (N, K, D) ->
  (0 < N)%nat -> (0 < K)%nat ->
  WingLoss.forward self output target target_weight =
  Returns
    (Fin (sum_upto N
            (sum_dims12
               (map1 (WingLoss.wing self
                        (WingLoss.omega self *
                         (1 - ln (1 + WingLoss.omega self /
                                      WingLoss.epsilon self))))
                  (abs (zip Rminus
                          (weighted (WingLoss.use_target_weight self)
                             target target_weight)
                          (weighted (WingLoss.use_target_weight self)
                             output target_weight)))))
          / INR N / INR K * WingLoss.loss_weight self)).
Proof.
  intros Hom Hep Ho Ht Hw HN HK.
  destruct (shape_eq output (mkTensor N K D (fun _ _ _ => 0)) Ho)
    as (A0 & A1 & A2). simpl in A0, A1, A2.
  rewrite wing_forward_same_shape by congruence.
  rewrite offset_positive by assumption. cbn [bind].
  unfold mean_dim0. rewrite A0, A1.
  destruct (Nat.eqb_spec N 0) as [E|_]; [lia|].
  unfold div_count. destruct (Nat.eqb_spec K 0) as [E|_]; [lia|].
  reflexivity.
Qed.

Lemma shape_sample i x (N K D : nat) :
  shape x = (N, K, D) -> shape (sample i x) = (1%nat, K, D).
Proof.
  intros Hx.
  destruct (shape_eq x (mkTensor N K D (fun _ _ _ => 0)) Hx) as (_ & H1 & H2).
  simpl in H1, H2. unfold shape. simpl. congruence.
Qed.

(** X13: for output, target and weight of one shape (N, K, 2) with
    N, K >= 1, the loss of the batch is the mean over the batch of the
    losses of the single samples, for every configuration of
    [SmoothL1Loss] and for [WingLoss] with positive omega and epsilon. *)
Theorem batch_loss_is_mean_of_sample_losses :
  forall output target target_weight (N K : nat),
    shape output = (N, K, 2%nat) ->
    shape target = (N, K, 2%nat) ->
    shape target_weight = (N, K, 2%nat) ->
    (0 < N)%nat -> (0 < K)%nat ->
    (forall self,
       exists r : nat -> R,
         (forall i, (i < N)%nat ->
            SmoothL1Loss.forward self (sample i output) (sample i target)
              (sample i target_weight) = Returns (Fin (r i))) /\
         SmoothL1Loss.forward self output target target_weight =
         Returns (Fin (sum_upto N r / INR N))) /\
    (forall self,
       0 < WingLoss.omega self -> 0 < WingLoss.epsilon self ->
       exists r : nat -> R,
         (forall i, (i < N)%nat ->
            WingLoss.forward self (sample i output) (sample i target)
              (sample i target_weight) = Returns (Fin (r i))) /\
         WingLoss.forward self output target target_weight =
         Returns (Fin (sum_upto N r / INR N))).
Proof.
  intros output target w N K Ho Ht Hw HN HK.
  destruct (shape_eq output (mkTensor N K 2 (fun _ _ _ => 0)) Ho)
    as (A0 & A1 & A2). simpl in A0, A1, A2.
  destruct (shape_eq target (mkTensor N K 2 (fun _ _ _ => 0)) Ht)
    as (T0 & T1 & T2). simpl in T0, T1, T2.
  assert (NK : INR (K * 2) <> 0) by (apply not_0_INR; lia).
  assert (NN : INR N <> 0) by (apply not_0_INR; lia).
  assert (NJ : INR K <> 0) by (apply not_0_INR; lia).
  split.
  - intros self.
    set (z := zip smooth_l1
                (weighted (SmoothL1Loss.use_target_weight self) output w)
                (weighted (SmoothL1Loss.use_target_weight self) target w)).
    exists (fun i => sum_dims12 z i / INR (K * 2) / INR K *
                     SmoothL1Loss.loss_weight self).
    split.
    + intros i Hi.
      rewrite (smooth_forward_value self _ _ _ 1 K 2)
        by (eauto using shape_sample || lia).
      do 2 f_equal. replace (1 * K * 2)%nat with (K * 2)%nat by lia.
      simpl sum_upto at 1. rewrite Rplus_0_l. do 3 f_equal.
      unfold sum_dims12, z. simpl.
      rewrite !size1_weighted, !size2_weighted. simpl.
      apply sum_upto_ext. intros j _. apply sum_upto_ext. intros d _.
      destruct (SmoothL1Loss.use_target_weight self); reflexivity.
    + rewrite (smooth_forward_value self _ _ _ N K 2)
        by (assumption || lia).
      fold z. do 2 f_equal.
      rewrite <- Nat.mul_assoc, (mult_INR N).
      rewrite (sum_upto_ext N
                 (fun i => sum_dims12 z i / INR (K * 2) / INR K *
                           SmoothL1Loss.loss_weight self)
                 (fun i => sum_dims12 z i *
                           (/ INR (K * 2) * / INR K *
                            SmoothL1Loss.loss_weight self)))
        by (intros; unfold Rdiv; ring).
      rewrite mean_of_scaled by assumption.
      field. repeat split; assumption.
  - intros self Hom Hep.
    set (c := WingLoss.omega self *
              (1 - ln (1 + WingLoss.omega self / WingLoss.epsilon self))).
    set (z := map1 (WingLoss.wing self c)
                (abs (zip Rminus
                        (weighted (WingLoss.use_target_weight self) target w)
                        (weighted (WingLoss.use_target_weight self)
                           output w)))).
    exists (fun i => sum_dims12 z i / INR K * WingLoss.loss_weight self).
    split.
    + intros i Hi.
      rewrite (wing_forward_value self _ _ _ 1 K 2)
        by (assumption || eauto using shape_sample || lia).
      fold c. do 2 f_equal.
      simpl sum_upto at 1. rewrite Rplus_0_l.
      change (INR 1) with 1. unfold Rdiv at 2.
      rewrite Rinv_1, Rmult_1_r. do 2 f_equal.
      unfold sum_dims12, z. simpl.
      rewrite !size1_weighted, !size2_weighted. simpl.
      apply sum_upto_ext. intros j _. apply sum_upto_ext. intros d _.
      destruct (WingLoss.use_target_weight self); reflexivity.
    + rewrite (wing_forward_value self _ _ _ N K 2)
        by (assumption || lia).
      fold c. fold z. do 2 f_equal.
      rewrite (sum_upto_ext N
                 (fun i => sum_dims12 z i / INR K *
                           WingLoss.loss_weight self)
                 (fun i => sum_dims12 z i *
                           (/ INR K * WingLoss.loss_weight self)))
        by (intros; unfold Rdiv; ring).
      rewrite mean_of_scaled by assumption.
      field. repeat split; assumption.
Qed.

(** The statement at the scenario repeated twice and the default losses. *)
Lemma batch_loss_is_mean_of_sample_losses_witness :
  (exists r : nat -> R,
     (forall i, (i < 2)%nat ->
        SmoothL1Loss.forward SmoothL1Loss.default
          (sample i (repeat_batch 2 scenario_output))
          (sample i (repeat_batch 2 scenario_target))
          (sample i (repeat_batch 2 scenario_weight)) =
        Returns (Fin (r i))) /\
     SmoothL1Loss.forward SmoothL1Loss.default
       (repeat_batch 2 scenario_output) (repeat_batch 2 scenario_target)
       (repeat_batch 2 scenario_weight) =
     Returns (Fin (sum_upto 2 r / INR 2))) /\
  (exists r : nat -> R,
     (forall i, (i < 2)%nat ->
        WingLoss.forward WingLoss.default
          (sample i (repeat_batch 2 scenario_output))
          (sample i (repeat_batch 2 scenario_target))
          (sample i (repeat_batch 2 scenario_weight)) =
        Returns (Fin (r i))) /\
     WingLoss.forward WingLoss.default
       (repeat_batch 2 scenario_output) (repeat_batch 2 scenario_target)
       (repeat_batch 2 scenario_weight) =
     Returns (Fin (sum_upto 2 r / INR 2))).
Proof.
  assert (H2 : (0 < 2)%nat) by lia.
  destruct (batch_loss_is_mean_of_sample_losses
              (repeat_batch 2 scenario_output)
              (repeat_batch 2 scenario_target)
              (repeat_batch 2 scenario_weight) 2 1
              eq_refl eq_refl eq_refl H2 (le_n 1)) as [Hs Hg].
  split.
  - apply Hs.
  - apply Hg; simpl; lra.
Defined.
